(** * The editor state controller of the notepad application (src/App.tsx)

    The component [App] keeps its state in eleven [useState] cells, changes
    it from event handlers and from five [useEffect] hooks, and talks to two
    outside services: the document store (Firestore) and the identity
    service.  The embedding below follows the component:

    - [State] is the tuple of [useState] cells, with one setter per cell;
    - a [World] is the live state, the state of the last committed render
      (what the closures of that render see, and what effect dependencies
      are compared against), the pending auto-save timeout, the timer
      clock, the log of store calls, the log of their answers (each with
      the live state in which the awaiting handler resumed) and the log of
      console messages;
    - an [async] handler is a function of the closure it was created in,
      of the answers of the store (resolved or rejected) and of the readings
      of the wall clock, and runs to completion: no other event is taken
      while it awaits;
    - after each batch of updates the effects run ([effects_pass]) until a
      render changes nothing ([settle]).

    Object identity of JavaScript values is approximated by structural
    equality. *)

From Stdlib Require Import ZArith Lia.
From stdpp Require Import base decidable option list strings.

Open Scope Z_scope.
Open Scope string_scope.
Open Scope list_scope.

(** ** Data model *)

(** [Timestamp] of the store, as milliseconds. *)
Definition Timestamp := Z.

(** [interface Note] *)
Module Note.
Record t := mk {
  id : string;
  title : string;
  content : string;
  createdAt : option Timestamp;
  lastModified : option Timestamp;
  userId : option string
}.
End Note.

Global Instance Note_eq_dec : EqDecision Note.t.
Proof. solve_decision. Defined.

(** The [User] of the identity service; only [uid] is read. *)
Record User := mkUser { uid : string }.

Global Instance User_eq_dec : EqDecision User.
Proof. solve_decision. Defined.

(** The [useState] cells of [App]. *)
Record State := mkState {
  currentUser : option User;
  authLoading : bool;
  notes : list Note.t;
  selectedNote : option Note.t;
  currentTitle : string;
  currentContent : string;
  isLoading : bool;
  isSaving : bool;
  isDirty : bool;
  showDeleteModal : bool;
  noteToDelete : option string
}.

Global Instance State_eq_dec : EqDecision State.
Proof. solve_decision. Defined.

(** The setters.  [setNotes] takes the updater function, as the source
    uses both [setNotes(value)] and [setNotes(prev => ...)]. *)
Definition setCurrentUser (v : option User) (s : State) : State :=
  mkState v (authLoading s) (notes s) (selectedNote s) (currentTitle s)
    (currentContent s) (isLoading s) (isSaving s) (isDirty s)
    (showDeleteModal s) (noteToDelete s).
Definition setAuthLoading (v : bool) (s : State) : State :=
  mkState (currentUser s) v (notes s) (selectedNote s) (currentTitle s)
    (currentContent s) (isLoading s) (isSaving s) (isDirty s)
    (showDeleteModal s) (noteToDelete s).
Definition setNotes (f : list Note.t -> list Note.t) (s : State) : State :=
  mkState (currentUser s) (authLoading s) (f (notes s)) (selectedNote s)
    (currentTitle s) (currentContent s) (isLoading s) (isSaving s) (isDirty s)
    (showDeleteModal s) (noteToDelete s).
Definition setSelectedNote (v : option Note.t) (s : State) : State :=
  mkState (currentUser s) (authLoading s) (notes s) v (currentTitle s)
    (currentContent s) (isLoading s) (isSaving s) (isDirty s)
    (showDeleteModal s) (noteToDelete s).
Definition setCurrentTitle (v : string) (s : State) : State :=
  mkState (currentUser s) (authLoading s) (notes s) (selectedNote s) v
    (currentContent s) (isLoading s) (isSaving s) (isDirty s)
    (showDeleteModal s) (noteToDelete s).
Definition setCurrentContent (v : string) (s : State) : State :=
  mkState (currentUser s) (authLoading s) (notes s) (selectedNote s)
    (currentTitle s) v (isLoading s) (isSaving s) (isDirty s)
    (showDeleteModal s) (noteToDelete s).
Definition setIsLoading (v : bool) (s : State) : State :=
  mkState (currentUser s) (authLoading s) (notes s) (selectedNote s)
    (currentTitle s) (currentContent s) v (isSaving s) (isDirty s)
    (showDeleteModal s) (noteToDelete s).
Definition setIsSaving (v : bool) (s : State) : State :=
  mkState (currentUser s) (authLoading s) (notes s) (selectedNote s)
    (currentTitle s) (currentContent s) (isLoading s) v (isDirty s)
    (showDeleteModal s) (noteToDelete s).
Definition setIsDirty (v : bool) (s : State) : State :=
  mkState (currentUser s) (authLoading s) (notes s) (selectedNote s)
    (currentTitle s) (currentContent s) (isLoading s) (isSaving s) v
    (showDeleteModal s) (noteToDelete s).
Definition setShowDeleteModal (v : bool) (s : State) : State :=
  mkState (currentUser s) (authLoading s) (notes s) (selectedNote s)
    (currentTitle s) (currentContent s) (isLoading s) (isSaving s) (isDirty s)
    v (noteToDelete s).
Definition setNoteToDelete (v : option string) (s : State) : State :=
  mkState (currentUser s) (authLoading s) (notes s) (selectedNote s)
    (currentTitle s) (currentContent s) (isLoading s) (isSaving s) (isDirty s)
    (showDeleteModal s) v.

(** The initial values given to [useState]. *)
Definition initial_state : State :=
  mkState None true [] None EmptyString EmptyString true false false false None.

(** Calls that reach the document store, in the order they are issued. *)
Inductive StoreOp :=
| GetDocs (user_id : string)
| UpdateDoc (note_id : string) (new_title new_content : string)
    (new_lastModified : Timestamp)
| AddDoc (new_title new_content : string)
    (new_createdAt new_lastModified : Timestamp) (owner : string)
| DeleteDoc (note_id : string).

Global Instance StoreOp_eq_dec : EqDecision StoreOp.
Proof. solve_decision. Defined.

(** A timeout armed by the auto-save effect: when it expires, and the
    render whose [saveCurrentNote] it will call. *)
Record Timer := mkTimer { deadline : Z; callback : State }.

(** An answer of the store, as the handler that awaited it finds it: the
    call, whether it resolved, and the live state in which the handler
    resumes after its [await]. *)
Record Answer := mkAnswer {
  answered : StoreOp;
  accepted : bool;
  resumed_in : State
}.

Record World := mkWorld {
  st : State;
  rendered : State;
  timer : option Timer;
  clock : Z;
  store : list StoreOp;
  answers : list Answer;
  console : list string
}.

Definition upd (f : State -> State) (w : World) : World :=
  mkWorld (f (st w)) (rendered w) (timer w) (clock w) (store w) (answers w)
    (console w).
Definition set_rendered (r : State) (w : World) : World :=
  mkWorld (st w) r (timer w) (clock w) (store w) (answers w) (console w).
Definition set_timer (t : option Timer) (w : World) : World :=
  mkWorld (st w) (rendered w) t (clock w) (store w) (answers w) (console w).
Definition set_clock (c : Z) (w : World) : World :=
  mkWorld (st w) (rendered w) (timer w) c (store w) (answers w) (console w).
Definition issue (op : StoreOp) (w : World) : World :=
  mkWorld (st w) (rendered w) (timer w) (clock w) (store w ++ [op]) (answers w)
    (console w).
Definition console_error (msg : string) (w : World) : World :=
  mkWorld (st w) (rendered w) (timer w) (clock w) (store w) (answers w)
    (console w ++ [msg]).

(** The handler that awaited [op] resumes: the answer is logged with the
    live state of that moment. *)
Definition resume (op : StoreOp) (ok : bool) (w : World) : World :=
  mkWorld (st w) (rendered w) (timer w) (clock w) (store w)
    (answers w ++ [mkAnswer op ok (st w)]) (console w).

(** [notes.find(n => n.id === i)] *)
Definition find_note (i : string) (l : list Note.t) : option Note.t :=
  List.find (fun n => bool_decide (Note.id n = i)) l.

(** [{ ...n, ...updatedNoteData }] *)
Definition merge_update (t c : string) (ts : Timestamp) (n : Note.t) : Note.t :=
  Note.mk (Note.id n) t c (Note.createdAt n) (Some ts) (Note.userId n).

(** [n => n.id === selectedNote.id ? { ...n, ...updatedNoteData } : n] *)
Definition replace_saved (i : string) (t c : string) (ts : Timestamp)
    (n : Note.t) : Note.t :=
  if bool_decide (Note.id n = i) then merge_update t c ts n else n.

(** [currentTitle !== e.title || currentContent !== e.content] *)
Definition differs (s : State) (e : Note.t) : bool :=
  negb (bool_decide (currentTitle s = Note.title e))
  || negb (bool_decide (currentContent s = Note.content e)).

(** ** Effects *)

(** [fetchNotes(user)]: the answer of [getDocs] is [Some docs] when it
    resolves and [None] when it rejects. *)
Definition fetchNotes (user : option User) (answer : option (list Note.t))
    (w : World) : World :=
  match user with
  | None => upd (setIsLoading false) (upd (setNotes (fun _ => [])) w)
  | Some u =>
      let w1 := upd (setIsLoading true) w in
      let w2 := issue (GetDocs (uid u)) w1 in
      let w3 := match answer with
                | Some docs =>
                    upd (setNotes (fun _ => docs))
                      (resume (GetDocs (uid u)) true w2)
                | None =>
                    console_error "Error fetching notes: "
                      (resume (GetDocs (uid u)) false w2)
                end in
      upd (setIsLoading false) w3
  end.

(** The [useEffect] on [fetchNotes, currentUser]. *)
Definition effect_currentUser (answer : option (list Note.t)) (r : State)
    (w : World) : World :=
  match currentUser r with
  | Some u => fetchNotes (Some u) answer w
  | None => upd (setIsDirty false)
              (upd (setCurrentContent EmptyString)
                 (upd (setCurrentTitle EmptyString) (upd (setIsLoading false) w)))
  end.

(** The [useEffect] that drops a selection whose note left the list. *)
Definition selection_lost (r : State) : bool :=
  match selectedNote r with
  | Some sel => negb (bool_decide (is_Some (find_note (Note.id sel) (notes r))))
  | None => false
  end.

(** The updates it asks for, as one function of the live state. *)
Definition effect_selection (r : State) (s : State) : State :=
  if selection_lost r
  then setIsDirty false
         (setCurrentContent EmptyString (setCurrentTitle EmptyString (setSelectedNote None s)))
  else s.

(** The [useEffect] that tracks whether the form is dirty. *)
Definition effect_dirty (r : State) (s : State) : State :=
  match selectedNote r with
  | Some sel =>
      match find_note (Note.id sel) (notes r) with
      | Some originalNoteInState => setIsDirty (differs r originalNoteInState) s
      | None => s
      end
  | None => setIsDirty false s
  end.

(** Dependencies of the auto-save effect: [isDirty, selectedNote,
    saveCurrentNote, isSaving], where [saveCurrentNote] is renewed when
    [selectedNote, currentTitle, currentContent, isDirty] change. *)
Definition autosave_deps (s : State) :
    bool * option Note.t * string * string * bool :=
  (isDirty s, selectedNote s, currentTitle s, currentContent s, isSaving s).

Definition autosave_armed (r : State) : bool :=
  isDirty r && bool_decide (is_Some (selectedNote r)) && negb (isSaving r).

(** What the auto-save effect leaves behind when it runs on render [r]:
    its clean-up has cleared the timeout of the previous run. *)
Definition arm (now : Z) (r : State) : option Timer :=
  if autosave_armed r then Some (mkTimer (now + 1500) r) else None.

Definition effect_autosave (r : State) (w : World) : World :=
  set_timer (arm (clock w) r) w.

(** One commit.  [r] is the state that was rendered; every effect closes
    over [r], and the updates they ask for are applied in order to the live
    state.  The effects on the user and on auto-save run when their
    dependencies differ from those of the previous commit (or on mount).
    The two effects on the selection and on the dirty flag write values
    that depend on their dependencies alone; they are run at each commit. *)
Definition effects_pass (mount : bool) (answer : option (list Note.t))
    (w : World) : World :=
  let p := rendered w in
  let r := st w in
  let w1 := if mount || negb (bool_decide (currentUser p = currentUser r))
            then effect_currentUser answer r w else w in
  let w2 := upd (effect_selection r) w1 in
  let w3 := upd (effect_dirty r) w2 in
  let w4 := if mount || negb (bool_decide (autosave_deps p = autosave_deps r))
            then effect_autosave r w3 else w3 in
  set_rendered r w4.

(** Commits are repeated until a render changes nothing. *)
Fixpoint settle_loop (fuel : nat) (mount : bool)
    (answer : option (list Note.t)) (w : World) : World :=
  match fuel with
  | O => w
  | S k =>
      let w' := effects_pass mount answer w in
      if bool_decide (st w' = rendered w') then w'
      else settle_loop k false answer w'
  end.

Definition settle_with (answer : option (list Note.t)) (w : World) : World :=
  settle_loop 4 false answer w.

(** Commit when no fetch can be started (the user did not change). *)
Definition settle (w : World) : World := settle_with None w.

(** The component after its first render and the effects of the mount. *)
Definition mounted : World :=
  settle_loop 4 true None (mkWorld initial_state initial_state None 0 [] [] []).

(** ** Handlers *)

(** What the outside gives to one [saveCurrentNote]: the reading of
    [Timestamp.now()] and whether [updateDoc] resolves. *)
Record SaveAnswer := mkSaveAnswer { now : Timestamp; resolved : bool }.

(** The part of [saveCurrentNote] before the [await]. *)
Definition saveCurrentNote_begin (c : State) (a : SaveAnswer) (w : World) :
    World :=
  match selectedNote c with
  | Some sel =>
      let w1 := upd (setIsSaving true) w in
      issue (UpdateDoc (Note.id sel) (currentTitle c) (currentContent c) (now a)) w1
  | None => w
  end.

(** The part of [saveCurrentNote] after the [await]. *)
Definition saveCurrentNote_end (c : State) (a : SaveAnswer) (w : World) :
    World :=
  match selectedNote c with
  | Some sel =>
      let w0 := resume (UpdateDoc (Note.id sel) (currentTitle c)
                          (currentContent c) (now a)) (resolved a) w in
      let w1 :=
        if resolved a
        then upd (setIsDirty false)
               (upd (setNotes (map (replace_saved (Note.id sel)
                       (currentTitle c) (currentContent c) (now a)))) w0)
        else console_error "Error saving note:" w0 in
      upd (setIsSaving false) w1
  | None => w
  end.

(** [saveCurrentNote], called from the render with state [c]. *)
Definition saveCurrentNote (c : State) (a : SaveAnswer) (w : World) : World :=
  if bool_decide (is_Some (selectedNote c)) && isDirty c
  then settle (saveCurrentNote_end c a (settle (saveCurrentNote_begin c a w)))
  else w.

(** The guard of [handleSelectNote]. *)
Definition must_flush (c : State) (noteToSelect : Note.t) : bool :=
  match selectedNote c with
  | Some sel => negb (bool_decide (Note.id sel = Note.id noteToSelect)) && isDirty c
  | None => false
  end.

(** The four updates at the end of [handleSelectNote]. *)
Definition load_note (noteToSelect : Note.t) (s : State) : State :=
  setIsDirty false
    (setCurrentContent (Note.content noteToSelect)
       (setCurrentTitle (Note.title noteToSelect)
          (setSelectedNote (Some noteToSelect) s))).

Definition handleSelectNote (c : State) (noteToSelect : Note.t)
    (a : SaveAnswer) (w : World) : World :=
  let w1 := if must_flush c noteToSelect then saveCurrentNote c a w else w in
  settle (upd (load_note noteToSelect) w1).

(** [handleAddNewNote].  [createdAt_now] and [lastModified_now] are the
    readings of the two calls of [Timestamp.now()] that build
    [newNoteData]; [answer] is the identifier given by [addDoc], or [None]
    when it rejects.  The call [handleSelectNote(newNote)] at the end is the
    function of the render [c] and is not awaited: when its guard holds for
    [c] it starts [saveCurrentNote] of [c] again (answer [a2]), the handler
    goes on to [setIsSaving(false)], and the note is loaded once that save
    has come back. *)
Definition handleAddNewNote (c : State) (a1 : SaveAnswer)
    (createdAt_now lastModified_now : Timestamp) (answer : option string)
    (a2 : SaveAnswer) (w : World) : World :=
  let w1 := if bool_decide (is_Some (selectedNote c)) && isDirty c
            then saveCurrentNote c a1 w else w in
  match currentUser c with
  | None => console_error "No user logged in. Cannot add note." w1
  | Some u =>
      let w2 := settle (upd (setIsSaving true) w1) in
      let create := AddDoc "Untitled Note" EmptyString createdAt_now
                      lastModified_now (uid u) in
      let w3 := issue create w2 in
      match answer with
      | Some new_id =>
          let newNote := Note.mk new_id "Untitled Note" EmptyString
                           (Some createdAt_now) (Some lastModified_now)
                           (Some (uid u)) in
          let w4 := upd (setNotes (cons newNote)) (resume create true w3) in
          if must_flush c newNote then
            let w5 := saveCurrentNote_begin c a2 w4 in
            let w6 := settle (upd (setIsSaving false) w5) in
            let w7 := settle (saveCurrentNote_end c a2 w6) in
            settle (upd (load_note newNote) w7)
          else
            settle (upd (setIsSaving false) (upd (load_note newNote) w4))
      | None =>
          settle (upd (setIsSaving false)
                    (console_error "Error adding new note: "
                       (resume create false w3)))
      end
  end.

(** [handleCloseDeleteModal], as a sequence of updates. *)
Definition closeDeleteModal (s : State) : State :=
  setNoteToDelete None (setShowDeleteModal false s).

Definition handleCloseDeleteModal (w : World) : World :=
  settle (upd closeDeleteModal w).

(** [handleDeleteNote(noteId, event)] *)
Definition handleDeleteNote (noteId : string) (w : World) : World :=
  settle (upd (setShowDeleteModal true) (upd (setNoteToDelete (Some noteId)) w)).

(** The updates of [handleConfirmDelete] when [deleteDoc] has resolved. *)
Definition delete_locally (c : State) (d : string) (w : World) : World :=
  let w1 := upd (setNotes (List.filter
                   (fun n => negb (bool_decide (Note.id n = d))))) w in
  match selectedNote c with
  | Some sel =>
      if bool_decide (Note.id sel = d)
      then upd (setIsDirty false)
             (upd (setCurrentContent EmptyString)
                (upd (setCurrentTitle EmptyString) (upd (setSelectedNote None) w1)))
      else w1
  | None => w1
  end.

(** [handleConfirmDelete]; [ok] tells whether [deleteDoc] resolves.  The
    test [!noteToDelete] also holds for the empty string. *)
Definition handleConfirmDelete (c : State) (ok : bool) (w : World) : World :=
  match noteToDelete c with
  | Some d =>
      if bool_decide (d = EmptyString) then w
      else
        let w1 := settle (upd (setIsSaving true) w) in
        let w2 := resume (DeleteDoc d) ok (issue (DeleteDoc d) w1) in
        let w3 := if ok then delete_locally c d w2
                  else console_error "Error deleting note:" w2 in
        settle (upd closeDeleteModal (upd (setIsSaving false) w3))
  | None => w
  end.

(** The callback given to [onAuthStateChanged]; [answer] is what [getDocs]
    gives to the fetch that a new user starts. *)
Definition authStateChanged (user : option User)
    (answer : option (list Note.t)) (w : World) : World :=
  let w1 := upd (setAuthLoading false) (upd (setCurrentUser user) w) in
  let w2 := match user with
            | None => upd (setSelectedNote None) (upd (setNotes (fun _ => [])) w1)
            | Some _ => w1
            end in
  settle_with answer w2.

(** [handleLogout]; when [signOut] resolves the identity service reports
    that there is no user. *)
Definition handleLogout (ok : bool) (w : World) : World :=
  if ok then authStateChanged None None w
  else console_error "Error signing out: " w.

(** The [onChange] of the title input and of the editor. *)
Definition editTitle (v : string) (w : World) : World :=
  settle (upd (setCurrentTitle v) w).
Definition editContent (v : string) (w : World) : World :=
  settle (upd (setCurrentContent v) w).

(** The pending timeout expires and calls the [saveCurrentNote] it closed
    over. *)
Definition timeout_fires (a : SaveAnswer) (w : World) : World :=
  match timer w with
  | Some t => saveCurrentNote (callback t) a (set_timer None w)
  | None => w
  end.

(** Time passes without any event. *)
Definition wait (dt : Z) (w : World) : World := set_clock (clock w + dt) w.

(** ** Runs of the component

    One event at a time, each in a state whose render is committed, and
    each handler run to its end: the store answers every call within the
    step that sends it.  A run of the component in which another event is
    taken while a call is in flight (a sign-out before [getDocs] answers,
    say) is not a run of [step].  The handlers of the page need a user; a
    click on a note gives a note of the rendered list; the controls that
    the source disables while [isSaving] are not used then; time does not
    run past a pending timeout. *)
Inductive step : World -> World -> Prop :=
| step_auth w user answer :
    step w (authStateChanged user answer w)
| step_logout w ok :
    is_Some (currentUser (st w)) ->
    step w (handleLogout ok w)
| step_title w v :
    is_Some (currentUser (st w)) -> is_Some (selectedNote (st w)) ->
    isSaving (st w) = false -> v <> currentTitle (st w) ->
    step w (editTitle v w)
| step_content w v :
    is_Some (currentUser (st w)) -> is_Some (selectedNote (st w)) ->
    isSaving (st w) = false -> v <> currentContent (st w) ->
    step w (editContent v w)
| step_select w n a :
    is_Some (currentUser (st w)) -> In n (notes (st w)) ->
    step w (handleSelectNote (st w) n a w)
| step_add w a1 t1 t2 answer a2 :
    is_Some (currentUser (st w)) -> isSaving (st w) = false ->
    step w (handleAddNewNote (st w) a1 t1 t2 answer a2 w)
| step_delete w n :
    is_Some (currentUser (st w)) -> isSaving (st w) = false ->
    In n (notes (st w)) ->
    step w (handleDeleteNote (Note.id n) w)
| step_cancel w :
    is_Some (currentUser (st w)) -> isSaving (st w) = false ->
    showDeleteModal (st w) = true ->
    step w (handleCloseDeleteModal w)
| step_confirm w ok :
    is_Some (currentUser (st w)) -> isSaving (st w) = false ->
    showDeleteModal (st w) = true ->
    step w (handleConfirmDelete (st w) ok w)
| step_timeout w t a :
    timer w = Some t -> deadline t = clock w ->
    step w (timeout_fires a w)
| step_wait w dt :
    0 < dt ->
    (forall t, timer w = Some t -> clock w + dt <= deadline t) ->
    step w (wait dt w).

Inductive reachable : World -> Prop :=
| reachable_mounted : reachable mounted
| reachable_step w w' : reachable w -> step w w' -> reachable w'.

(** ** Predicates and examples used by the theorems *)

(** The state after the effects on the selection and on the dirty flag
    of a render of [r]. *)
Definition selection_and_dirty (r : State) : State :=
  effect_dirty r (effect_selection r r).

(** A selected note has its entry in the list. *)
Definition selection_kept (s : State) : Prop :=
  forall sel, selectedNote s = Some sel ->
    is_Some (find_note (Note.id sel) (notes s)).

(** The dirty flag says whether the form differs from the entry. *)
Definition dirty_tracked (s : State) : Prop :=
  match selectedNote s with
  | Some sel =>
      forall e, find_note (Note.id sel) (notes s) = Some e ->
        isDirty s = differs s e
  | None => isDirty s = false
  end.

(** The pending timeout is the one the auto-save effect leaves for [s]. *)
Definition timer_tracks (s : State) (t : option Timer) : Prop :=
  match t with
  | Some tm => autosave_armed s = true /\ autosave_deps (callback tm) = autosave_deps s
  | None => autosave_armed s = false
  end.

(** A world between two events. *)
Record quiet (w : World) : Prop := mk_quiet {
  quiet_rendered : rendered w = st w;
  quiet_effects : selection_and_dirty (st w) = st w;
  quiet_timer : timer_tracks (st w) (timer w)
}.

(** The pending timeout is the one armed for the committed render. *)
Definition tracked (w : World) : Prop := timer_tracks (rendered w) (timer w).

(** A pending timeout was armed at the present time. *)
Definition fresh (w : World) : Prop :=
  forall t, timer w = Some t -> deadline t = clock w + 1500.

(** The user has not changed since the committed render, so the next commit
    starts no fetch. *)
Definition same_user (w : World) : Prop :=
  currentUser (rendered w) = currentUser (st w).

(** A run used to instantiate the theorems: a user signs in and the store
    answers with two notes; the first is opened; its title is changed from
    A to B. *)
Definition demo_n1 : Note.t :=
  Note.mk "n1" "A" "x" (Some 10) (Some 10) (Some "u").
Definition demo_n2 : Note.t :=
  Note.mk "n2" "C" "y" (Some 5) (Some 5) (Some "u").
Definition demo_login : World :=
  authStateChanged (Some (mkUser "u")) (Some [demo_n1; demo_n2]) mounted.
Definition demo_selected : World :=
  handleSelectNote (st demo_login) demo_n1 (mkSaveAnswer 0 true) demo_login.
Definition demo_dirty : World := editTitle "B" demo_selected.

(** The form of the state [Empty]. *)
Definition form_empty (s : State) : Prop :=
  selectedNote s = None /\ currentTitle s = EmptyString
  /\ currentContent s = EmptyString /\ isDirty s = false.

(** The opened note has left the list. *)
Definition demo_lost : World := upd (setNotes (fun _ => [])) demo_selected.

(** The state a resolved or rejected [updateDoc] leaves, before the
    effects. *)
Definition after_save (c : State) (sel : Note.t) (a : SaveAnswer)
    (s : State) : State :=
  setIsSaving false
    (if resolved a
     then setIsDirty false
            (setNotes (map (replace_saved (Note.id sel) (currentTitle c)
                              (currentContent c) (now a))) s)
     else s).

(** The render is committed and its effects have run. *)
Definition steady (w : World) : Prop :=
  rendered w = st w /\ selection_and_dirty (st w) = st w.


(** The two fields of the form. *)
Inductive Field := FieldTitle | FieldContent.

(** [Edit(field, value)] over the two [onChange] handlers. *)
Definition field_value (f : Field) (s : State) : string :=
  match f with FieldTitle => currentTitle s | FieldContent => currentContent s end.

Definition edit (f : Field) (v : string) (w : World) : World :=
  match f with FieldTitle => editTitle v w | FieldContent => editContent v w end.

Definition setField (f : Field) (v : string) (s : State) : State :=
  match f with FieldTitle => setCurrentTitle v s | FieldContent => setCurrentContent v s end.

(** The delete button of the opened note was pressed. *)
Definition demo_pending : World := handleDeleteNote "n1" demo_dirty.


(** A new note is added while the clock moves from 100 to 101. *)
Definition demo_added : World :=
  handleAddNewNote (st demo_selected) (mkSaveAnswer 0 true) 100 101
    (Some "n3") (mkSaveAnswer 0 true) demo_selected.

(** ** What is on the screen

    The three returns of [App]: the spinner while [authLoading], the login
    page without a user, the page of the notes otherwise. *)
Inductive View := ViewSpinner | ViewLogin | ViewNotes.

Definition view (s : State) : View :=
  if authLoading s then ViewSpinner
  else match currentUser s with None => ViewLogin | Some _ => ViewNotes end.

(** [s'] has the user, [authLoading] and [isSaving] of [s]. *)
Definition same_session (s s' : State) : Prop :=
  currentUser s' = currentUser s /\ authLoading s' = authLoading s
  /\ isSaving s' = isSaving s.

(** [s'] has the cells of the confirmation dialog of [s]. *)
Definition same_dialog (s s' : State) : Prop :=
  showDeleteModal s' = showDeleteModal s /\ noteToDelete s' = noteToDelete s.

(** A pending timeout is not overdue and expires within 1.5 s. *)
Definition due (w : World) : Prop :=
  forall t, timer w = Some t -> clock w <= deadline t <= clock w + 1500.

(** The dialog is open exactly when an id is pending. *)
Definition dialog_matches (s : State) : Prop :=
  showDeleteModal s = true <-> is_Some (noteToDelete s).

(** ** The login page (LoginPage.tsx) *)

Module LoginPage.

(** The [useState] cells of [LoginPage]. *)
Record t := mk {
  email : string;
  password : string;
  isLogin : bool;
  error : option string;
  isLoading : bool
}.

Definition initial : t := mk EmptyString EmptyString true None false.

(** The calls to the identity service. *)
Inductive AuthCall :=
| SignIn (user_email user_password : string)
| SignUp (user_email user_password : string).

(** What the page has done so far: its cells, the calls it made and what
    it wrote on the console. *)
Record page := mkPage {
  cells : t;
  calls : list AuthCall;
  logged : list string
}.

(** [handleSubmit]; [answer] is [None] when the call resolves and the
    message of the [AuthError] when it rejects. *)
Definition handleSubmit (answer : option string) (p : page) : page :=
  let s := cells p in
  let s1 := mk (email s) (password s) (isLogin s) None true in
  let call := if isLogin s then SignIn (email s) (password s)
              else SignUp (email s) (password s) in
  let s2 := match answer with
            | Some message => mk (email s1) (password s1) (isLogin s1)
                                (Some message) (isLoading s1)
            | None => s1
            end in
  let out := match answer with
             | Some _ => logged p ++ ["Authentication error: "]
             | None => logged p
             end in
  mkPage (mk (email s2) (password s2) (isLogin s2) (error s2) false)
         (calls p ++ [call]) out.

(** The link under the form: [setIsLogin(!isLogin); setError(null)]. *)
Definition toggleMode (p : page) : page :=
  let s := cells p in
  mkPage (mk (email s) (password s) (negb (isLogin s)) None (isLoading s))
         (calls p) (logged p).

(** The two inputs. *)
Definition setEmail (v : string) (p : page) : page :=
  let s := cells p in
  mkPage (mk v (password s) (isLogin s) (error s) (isLoading s))
         (calls p) (logged p).
Definition setPassword (v : string) (p : page) : page :=
  let s := cells p in
  mkPage (mk (email s) v (isLogin s) (error s) (isLoading s))
         (calls p) (logged p).

(** The text of the submit button. *)
Definition buttonText (s : t) : string :=
  if isLoading s then (if isLogin s then "Logging in..." else "Signing up...")
  else (if isLogin s then "Login" else "Sign Up").

Inductive Event :=
| Submit (answer : option string)
| Toggle
| TypeEmail (v : string)
| TypePassword (v : string).

Definition handle (p : page) (e : Event) : page :=
  match e with
  | Submit answer => handleSubmit answer p
  | Toggle => toggleMode p
  | TypeEmail v => setEmail v p
  | TypePassword v => setPassword v p
  end.

Definition run (events : list Event) (p : page) : page :=
  fold_left handle events p.

(** The events that write the error: what the last of them leaves. *)
Fixpoint error_after (events : list Event) (shown : option string) :
    option string :=
  match events with
  | [] => shown
  | Submit answer :: rest => error_after rest answer
  | Toggle :: rest => error_after rest None
  | _ :: rest => error_after rest shown
  end.

Definition is_submit (e : Event) : bool :=
  match e with Submit _ => true | _ => false end.
Definition is_toggle (e : Event) : bool :=
  match e with Toggle => true | _ => false end.

End LoginPage.

(** ** Properties of a commit *)

(** Reading a cell through the setters. *)
Ltac cells :=
  cbn [currentUser authLoading notes selectedNote currentTitle currentContent
       isLoading isSaving isDirty showDeleteModal noteToDelete
       setCurrentUser setAuthLoading setNotes setSelectedNote setCurrentTitle
       setCurrentContent setIsLoading setIsSaving setIsDirty
       setShowDeleteModal setNoteToDelete load_note closeDeleteModal
       st rendered timer clock store answers console
       upd issue resume console_error set_timer set_rendered set_clock].

Lemma pass_rendered m a w : rendered (effects_pass m a w) = st w.
Proof. reflexivity. Qed.

Lemma pass_clock m a w : clock (effects_pass m a w) = clock w.
Proof.
  unfold effects_pass, effect_currentUser, fetchNotes.
  repeat case_match; reflexivity.
Qed.

Lemma pass_user m a w :
  currentUser (st (effects_pass m a w)) = currentUser (st w).
Proof.
  unfold effects_pass, effect_currentUser, fetchNotes, effect_selection,
    effect_dirty.
  repeat case_match; simpl; congruence.
Qed.

Lemma pass_same_user a w :
  currentUser (rendered w) = currentUser (st w) ->
  st (effects_pass false a w) = selection_and_dirty (st w)
  /\ store (effects_pass false a w) = store w
  /\ console (effects_pass false a w) = console w.
Proof.
  intros Hu. unfold effects_pass. rewrite (bool_decide_eq_true_2 _ Hu). simpl.
  case_match; auto.
Qed.

Lemma selection_lost_spec r :
  selection_lost r =
  match selectedNote r with
  | Some sel =>
      match find_note (Note.id sel) (notes r) with Some _ => false | None => true end
  | None => false
  end.
Proof.
  unfold selection_lost. destruct (selectedNote r) as [sel|]; [|reflexivity].
  destruct (find_note (Note.id sel) (notes r)) eqn:He.
  - rewrite bool_decide_eq_true_2 by eauto. reflexivity.
  - rewrite bool_decide_eq_false_2 by (intros [? ?]; discriminate). reflexivity.
Qed.

Lemma selection_and_dirty_eq r :
  selection_and_dirty r =
  match selectedNote r with
  | Some sel =>
      match find_note (Note.id sel) (notes r) with
      | Some e => setIsDirty (differs r e) r
      | None => setIsDirty false
                  (setCurrentContent EmptyString (setCurrentTitle EmptyString (setSelectedNote None r)))
      end
  | None => setIsDirty false r
  end.
Proof.
  unfold selection_and_dirty, effect_dirty, effect_selection.
  rewrite selection_lost_spec.
  destruct (selectedNote r) as [sel|]; [|reflexivity].
  destruct (find_note (Note.id sel) (notes r)); reflexivity.
Qed.

Lemma selection_and_dirty_idem r :
  selection_and_dirty (selection_and_dirty r) = selection_and_dirty r.
Proof.
  rewrite (selection_and_dirty_eq r).
  destruct (selectedNote r) as [sel|] eqn:Hs.
  - destruct (find_note (Note.id sel) (notes r)) as [e|] eqn:He.
    + rewrite selection_and_dirty_eq. simpl. rewrite Hs, He. reflexivity.
    + rewrite selection_and_dirty_eq. reflexivity.
  - rewrite selection_and_dirty_eq. simpl. rewrite Hs. reflexivity.
Qed.

Lemma selection_and_dirty_user r :
  currentUser (selection_and_dirty r) = currentUser r.
Proof.
  unfold selection_and_dirty, effect_dirty, effect_selection.
  repeat case_match; reflexivity.
Qed.

Lemma stable_selection_kept s :
  selection_and_dirty s = s -> selection_kept s.
Proof.
  intros H sel Hs. destruct (find_note (Note.id sel) (notes s)) eqn:He; [eauto|].
  exfalso. apply (f_equal selectedNote) in H. revert H.
  rewrite selection_and_dirty_eq, Hs, He. simpl. discriminate.
Qed.

Lemma stable_dirty_tracked s :
  selection_and_dirty s = s -> dirty_tracked s.
Proof.
  intros H. unfold dirty_tracked. apply (f_equal isDirty) in H. revert H.
  rewrite selection_and_dirty_eq.
  destruct (selectedNote s) as [sel|] eqn:Hs; [|simpl; congruence].
  intros H e He. rewrite He in H. simpl in H. congruence.
Qed.

(** *** The timeout across a commit *)

Lemma autosave_armed_deps s s' :
  autosave_deps s = autosave_deps s' -> autosave_armed s = autosave_armed s'.
Proof. unfold autosave_deps, autosave_armed. intros [= -> -> _ _ ->]. reflexivity. Qed.

Lemma timer_tracks_arm c r : timer_tracks r (arm c r).
Proof.
  unfold arm. destruct (autosave_armed r) eqn:Ha; simpl; auto.
Qed.

Lemma timer_tracks_deps s s' t :
  autosave_deps s = autosave_deps s' -> timer_tracks s t -> timer_tracks s' t.
Proof.
  intros Hd. unfold timer_tracks. rewrite (autosave_armed_deps _ _ Hd).
  destruct t; [|auto]. intros [? ?]. split; congruence.
Qed.

Lemma pass_timer_changed m a w :
  autosave_deps (rendered w) <> autosave_deps (st w) ->
  timer (effects_pass m a w) = arm (clock w) (st w).
Proof.
  intros Hd. unfold effects_pass. rewrite (bool_decide_eq_false_2 _ Hd).
  rewrite orb_true_r. unfold effect_currentUser, fetchNotes.
  repeat case_match; reflexivity.
Qed.

Lemma pass_timer_mount a w :
  timer (effects_pass true a w) = arm (clock w) (st w).
Proof.
  unfold effects_pass, effect_currentUser, fetchNotes. cbn [orb].
  repeat case_match; reflexivity.
Qed.

Lemma pass_timer_same a w :
  autosave_deps (rendered w) = autosave_deps (st w) ->
  timer (effects_pass false a w) = timer w.
Proof.
  intros Hd. unfold effects_pass. rewrite (bool_decide_eq_true_2 _ Hd).
  unfold effect_currentUser, fetchNotes. simpl.
  repeat case_match; reflexivity.
Qed.

Lemma pass_timer_cases m a w :
  timer (effects_pass m a w) = arm (clock w) (st w)
  \/ (autosave_deps (rendered w) = autosave_deps (st w)
      /\ timer (effects_pass m a w) = timer w).
Proof.
  destruct m; [left; apply pass_timer_mount|].
  destruct (decide (autosave_deps (rendered w) = autosave_deps (st w))) as [Hd|Hd].
  - right. split; [assumption|]. apply pass_timer_same; assumption.
  - left. apply pass_timer_changed; assumption.
Qed.

Lemma pass_tracked m a w : tracked w -> tracked (effects_pass m a w).
Proof.
  unfold tracked. rewrite pass_rendered. intros Ht.
  destruct (pass_timer_cases m a w) as [->|[Hd ->]].
  - apply timer_tracks_arm.
  - eapply timer_tracks_deps; eassumption.
Qed.

Lemma pass_fresh m a w : fresh w -> fresh (effects_pass m a w).
Proof.
  unfold fresh. rewrite pass_clock. intros Hf t.
  destruct (pass_timer_cases m a w) as [->|[_ ->]]; [|apply Hf].
  unfold arm. case_match; [|discriminate]. intros [= <-]. reflexivity.
Qed.

(** *** Commits until nothing changes *)

Lemma settle_loop_ind (P : World -> Prop) a :
  (forall m w, P w -> P (effects_pass m a w)) ->
  forall n m w, P w -> P (settle_loop n m a w).
Proof.
  intros Hp n. induction n as [|n IH]; intros m w Hw; simpl; [assumption|].
  case_match; [apply Hp; assumption|]. apply IH, Hp, Hw.
Qed.

Lemma settle_loop_ind1 (P : World -> Prop) a :
  (forall m w, P w -> P (effects_pass m a w)) ->
  forall n m w, P (effects_pass m a w) -> P (settle_loop (S n) m a w).
Proof.
  intros Hp n m w Hw. simpl. case_match; [assumption|].
  apply settle_loop_ind; assumption.
Qed.

Lemma settle_loop_S n m a w :
  settle_loop (S n) m a w =
  if bool_decide (st (effects_pass m a w) = rendered (effects_pass m a w))
  then effects_pass m a w
  else settle_loop n false a (effects_pass m a w).
Proof. reflexivity. Qed.

(** With the user unchanged, three commits are enough, and the state they
    leave is the one of the first. *)
Lemma settle_loop_same_user n a w :
  currentUser (rendered w) = currentUser (st w) ->
  let w' := settle_loop (S (S (S n))) false a w in
  st w' = selection_and_dirty (st w)
  /\ rendered w' = st w'
  /\ store w' = store w /\ console w' = console w.
Proof.
  intros Hu.
  destruct (pass_same_user a w Hu) as (Hs1 & Ht1 & Hc1).
  set (w1 := effects_pass false a w) in *.
  assert (Hu1 : currentUser (rendered w1) = currentUser (st w1)).
  { unfold w1. rewrite pass_rendered, pass_user. reflexivity. }
  destruct (pass_same_user a w1 Hu1) as (Hs2 & Ht2 & Hc2).
  set (w2 := effects_pass false a w1) in *.
  assert (Hu2 : currentUser (rendered w2) = currentUser (st w2)).
  { unfold w2. rewrite pass_rendered, pass_user. reflexivity. }
  destruct (pass_same_user a w2 Hu2) as (Hs3 & Ht3 & Hc3).
  set (w3 := effects_pass false a w2) in *.
  assert (H21 : st w2 = st w1).
  { rewrite Hs2, Hs1. apply selection_and_dirty_idem. }
  assert (H32 : st w3 = st w2).
  { rewrite Hs3, H21, Hs1. rewrite selection_and_dirty_idem. congruence. }
  cbn zeta. rewrite settle_loop_S. fold w1.
  case_bool_decide as E1.
  { repeat split; congruence. }
  rewrite settle_loop_S. fold w2.
  case_bool_decide as E2.
  { repeat split; congruence. }
  exfalso. apply E2. unfold w2 at 2. rewrite pass_rendered. assumption.
Qed.

Lemma setIsDirty_same s : setIsDirty (isDirty s) s = s.
Proof. destruct s; reflexivity. Qed.

Lemma pass_fixed_stable m a w :
  st (effects_pass m a w) = st w -> selection_and_dirty (st w) = st w.
Proof.
  intros H.
  pose proof (f_equal selectedNote H) as Hsel.
  pose proof (f_equal isDirty H) as Hd.
  rewrite selection_and_dirty_eq.
  unfold effects_pass, effect_currentUser, fetchNotes, effect_dirty,
    effect_selection in Hsel, Hd.
  rewrite selection_lost_spec in Hsel, Hd.
  destruct (selectedNote (st w)) as [sel|] eqn:Hs.
  - destruct (find_note (Note.id sel) (notes (st w))) as [e|] eqn:He.
    + assert (Hx : differs (st w) e = isDirty (st w))
        by (revert Hd; repeat case_match; simpl; congruence).
      rewrite Hx. apply setIsDirty_same.
    + exfalso. revert Hsel. repeat case_match; simpl; congruence.
  - assert (Hx : false = isDirty (st w))
      by (revert Hd; repeat case_match; simpl; congruence).
    rewrite Hx. apply setIsDirty_same.
Qed.

(** What [settle_loop] gives after its first commit. *)
Lemma settle_loop_first m a w :
  let w1 := effects_pass m a w in
  let w' := settle_loop 4 m a w in
  st w' = selection_and_dirty (st w1)
  /\ rendered w' = st w'
  /\ store w' = store w1 /\ console w' = console w1.
Proof.
  intros w1 w'. unfold w'. rewrite settle_loop_S. fold w1.
  case_bool_decide as E.
  - repeat split; try congruence.
    unfold w1 at 2 in E. rewrite pass_rendered in E.
    rewrite E. symmetry. eapply pass_fixed_stable. exact E.
  - apply settle_loop_same_user.
    unfold w1. rewrite pass_rendered, pass_user. reflexivity.
Qed.

Lemma settle_loop_clock n m a w : clock (settle_loop n m a w) = clock w.
Proof.
  apply (settle_loop_ind (fun x => clock x = clock w)); [|reflexivity].
  intros ? ? <-. apply pass_clock.
Qed.

Lemma settle_loop_tracked n m a w :
  tracked w -> tracked (settle_loop n m a w).
Proof. apply settle_loop_ind. intros; apply pass_tracked; assumption. Qed.

Lemma settle_loop_fresh n m a w : fresh w -> fresh (settle_loop n m a w).
Proof. apply settle_loop_ind. intros; apply pass_fresh; assumption. Qed.

Lemma settle_loop_quiet m a w :
  tracked w -> quiet (settle_loop 4 m a w).
Proof.
  intros Ht. destruct (settle_loop_first m a w) as (Hs & Hr & _).
  pose proof (settle_loop_tracked 4 m a w Ht) as Ht'. unfold tracked in Ht'.
  split.
  - assumption.
  - rewrite Hs. apply selection_and_dirty_idem.
  - rewrite <- Hr. assumption.
Qed.

Lemma settle_loop_user n m a w :
  currentUser (st (settle_loop n m a w)) = currentUser (st w).
Proof.
  apply (settle_loop_ind (fun x => currentUser (st x) = currentUser (st w)));
    [|reflexivity].
  intros ? ? <-. apply pass_user.
Qed.

(** *** [settle] when the user has not changed *)

Lemma settle_st w :
  same_user w -> st (settle w) = selection_and_dirty (st w).
Proof. intros Hu. apply (settle_loop_same_user 1 None w Hu). Qed.

Lemma settle_rendered w : rendered (settle w) = st (settle w).
Proof. apply (settle_loop_first false None w). Qed.

Lemma settle_store w : same_user w -> store (settle w) = store w.
Proof. intros Hu. apply (settle_loop_same_user 1 None w Hu). Qed.

Lemma settle_console w : same_user w -> console (settle w) = console w.
Proof. intros Hu. apply (settle_loop_same_user 1 None w Hu). Qed.

(** Without a fetch no answer is awaited in a commit. *)
Lemma pass_answers a w :
  same_user w -> answers (effects_pass false a w) = answers w.
Proof.
  intros Hu. unfold effects_pass. rewrite (bool_decide_eq_true_2 _ Hu). simpl.
  case_match; reflexivity.
Qed.

Lemma settle_loop_answers n a w :
  same_user w -> answers (settle_loop n false a w) = answers w.
Proof.
  revert w. induction n as [|n IH]; intros w Hu; [reflexivity|].
  rewrite settle_loop_S. case_match; [apply pass_answers, Hu|].
  rewrite IH; [apply pass_answers, Hu|].
  unfold same_user. rewrite pass_rendered, pass_user. reflexivity.
Qed.

Lemma settle_answers w : same_user w -> answers (settle w) = answers w.
Proof. apply settle_loop_answers. Qed.

Lemma settle_clock w : clock (settle w) = clock w.
Proof. apply settle_loop_clock. Qed.

Lemma settle_same_user w : same_user (settle w).
Proof. unfold same_user. rewrite settle_rendered. reflexivity. Qed.

Lemma settle_tracked w : tracked w -> tracked (settle w).
Proof. apply settle_loop_tracked. Qed.

Lemma settle_fresh w : fresh w -> fresh (settle w).
Proof. apply settle_loop_fresh. Qed.

Lemma settle_quiet w : tracked w -> quiet (settle w).
Proof. apply settle_loop_quiet. Qed.

Lemma quiet_tracked w : quiet w -> tracked w.
Proof. intros [Hr _ Ht]. unfold tracked. rewrite Hr. assumption. Qed.

Lemma quiet_same_user w : quiet w -> same_user w.
Proof. intros [Hr _ _]. unfold same_user. rewrite Hr. reflexivity. Qed.

(** From here on the commits are used through the lemmas above. *)
#[global] Arguments settle_loop : simpl never.
#[global] Arguments settle_with : simpl never.
#[global] Arguments settle : simpl never.
#[global] Arguments saveCurrentNote : simpl never.

(** ** The handlers keep the component quiet *)

Lemma pass_changed_tracked m a w :
  autosave_deps (rendered w) <> autosave_deps (st w) ->
  tracked (effects_pass m a w).
Proof.
  intros Hd. unfold tracked.
  rewrite pass_rendered, pass_timer_changed by assumption.
  apply timer_tracks_arm.
Qed.

Lemma pass_changed_fresh m a w :
  autosave_deps (rendered w) <> autosave_deps (st w) ->
  fresh (effects_pass m a w).
Proof.
  intros Hd t. rewrite pass_clock, pass_timer_changed by assumption.
  unfold arm. case_match; [|discriminate]. intros [= <-]. reflexivity.
Qed.

(** A commit whose render differs in the dependencies of the auto-save
    effect leaves the timeout that the effect arms, whatever was pending. *)
Lemma settle_changed_tracked w :
  autosave_deps (rendered w) <> autosave_deps (st w) ->
  tracked (settle w) /\ fresh (settle w).
Proof.
  intros Hd. split.
  - apply (settle_loop_ind1 tracked); [intros; apply pass_tracked; assumption|].
    apply pass_changed_tracked; assumption.
  - apply (settle_loop_ind1 fresh); [intros; apply pass_fresh; assumption|].
    apply pass_changed_fresh; assumption.
Qed.

Lemma tracked_upd f w : tracked w -> tracked (upd f w).
Proof. exact id. Qed.

Lemma tracked_issue op w : tracked w -> tracked (issue op w).
Proof. exact id. Qed.

Lemma tracked_console msg w : tracked w -> tracked (console_error msg w).
Proof. exact id. Qed.

Lemma tracked_resume op ok w : tracked w -> tracked (resume op ok w).
Proof. exact id. Qed.

Lemma saveCurrentNote_begin_tracked c a w :
  tracked w -> tracked (saveCurrentNote_begin c a w).
Proof. intros Ht. unfold saveCurrentNote_begin. case_match; exact Ht. Qed.

Lemma saveCurrentNote_end_tracked c a w :
  tracked w -> tracked (saveCurrentNote_end c a w).
Proof. intros Ht. unfold saveCurrentNote_end. repeat case_match; exact Ht. Qed.

Lemma delete_locally_tracked c d w :
  tracked w -> tracked (delete_locally c d w).
Proof. intros Ht. unfold delete_locally. repeat case_match; exact Ht. Qed.

Ltac keep_tracked :=
  repeat match goal with
    | |- tracked (settle _) => apply settle_tracked
    | |- tracked (saveCurrentNote_begin _ _ _) =>
        apply saveCurrentNote_begin_tracked
    | |- tracked (saveCurrentNote_end _ _ _) =>
        apply saveCurrentNote_end_tracked
    | |- tracked (delete_locally _ _ _) => apply delete_locally_tracked
    | |- tracked (upd _ _) => apply tracked_upd
    | |- tracked (issue _ _) => apply tracked_issue
    | |- tracked (resume _ _ _) => apply tracked_resume
    | |- tracked (console_error _ _) => apply tracked_console
    | |- tracked (if _ then _ else _) => case_match
    | |- tracked _ => assumption
    end.

Lemma saveCurrentNote_tracked c a w :
  tracked w -> tracked (saveCurrentNote c a w).
Proof. intros Ht. unfold saveCurrentNote. keep_tracked. Qed.

Lemma saveCurrentNote_quiet c a w :
  quiet w -> quiet (saveCurrentNote c a w).
Proof.
  intros Hq. pose proof (quiet_tracked w Hq) as Ht.
  unfold saveCurrentNote. case_match; [|assumption].
  apply settle_quiet. keep_tracked.
Qed.

Lemma handleSelectNote_quiet c n a w :
  quiet w -> quiet (handleSelectNote c n a w).
Proof.
  intros Hq. pose proof (quiet_tracked w Hq) as Ht.
  apply settle_quiet. apply tracked_upd.
  case_match; [apply saveCurrentNote_tracked|]; assumption.
Qed.

Lemma quiet_console msg w : quiet w -> quiet (console_error msg w).
Proof. intros [? ? ?]. split; assumption. Qed.

Lemma handleAddNewNote_quiet c a1 t1 t2 answer a2 w :
  quiet w -> quiet (handleAddNewNote c a1 t1 t2 answer a2 w).
Proof.
  intros Hq. unfold handleAddNewNote.
  set (w1 := if bool_decide (is_Some (selectedNote c)) && isDirty c
             then saveCurrentNote c a1 w else w).
  assert (Hq1 : quiet w1).
  { unfold w1. case_match; [apply saveCurrentNote_quiet|]; assumption. }
  pose proof (quiet_tracked w1 Hq1) as Ht1. clearbody w1.
  destruct (currentUser c) as [u|]; [|apply quiet_console; assumption].
  destruct answer as [new_id|]; [case_match|]; apply settle_quiet; keep_tracked.
Qed.

Lemma handleConfirmDelete_quiet c ok w :
  quiet w -> quiet (handleConfirmDelete c ok w).
Proof.
  intros Hq. pose proof (quiet_tracked w Hq) as Ht. unfold handleConfirmDelete.
  destruct (noteToDelete c) as [d|]; [|assumption].
  case_match; [assumption|]. apply settle_quiet.
  apply tracked_upd, tracked_upd. destruct ok; keep_tracked.
Qed.

(** What a pending timeout tells about the render it was armed in. *)
Lemma timer_tracks_pending s t :
  timer_tracks s (Some t) ->
  exists sel, selectedNote s = Some sel /\ selectedNote (callback t) = Some sel
    /\ isDirty s = true /\ isDirty (callback t) = true
    /\ isSaving s = false
    /\ currentTitle (callback t) = currentTitle s
    /\ currentContent (callback t) = currentContent s.
Proof.
  intros [Harm Hdeps].
  unfold autosave_deps in Hdeps. injection Hdeps as Hd Hs Hti Hco Hsa.
  unfold autosave_armed in Harm.
  apply andb_prop in Harm as [Harm Hns]. apply andb_prop in Harm as [Hdi Hsel].
  apply bool_decide_eq_true_1 in Hsel. apply negb_true_iff in Hns.
  destruct Hsel as [sel Hsel]. exists sel.
  repeat split; congruence.
Qed.

Lemma timeout_fires_quiet a w :
  quiet w -> quiet (timeout_fires a w).
Proof.
  intros Hq. unfold timeout_fires.
  destruct (timer w) as [t|] eqn:Ht; [|assumption].
  destruct Hq as [Hr Hf Htm]. rewrite Ht in Htm.
  destruct (timer_tracks_pending _ _ Htm)
    as (sel & Hsel & Hcsel & Hdi & Hcdi & Hns & _).
  unfold saveCurrentNote. rewrite Hcsel, Hcdi.
  rewrite bool_decide_eq_true_2 by eauto. simpl.
  apply settle_quiet, saveCurrentNote_end_tracked.
  apply settle_changed_tracked. unfold saveCurrentNote_begin.
  rewrite Hcsel. simpl. rewrite Hr. unfold autosave_deps. simpl.
  rewrite Hns. intros [= _].
Qed.

Lemma mounted_quiet : quiet mounted.
Proof. split; reflexivity. Qed.

Lemma step_quiet w w' : quiet w -> step w w' -> quiet w'.
Proof.
  intros Hq Hstep. pose proof (quiet_tracked w Hq) as Ht.
  destruct Hstep.
  - apply settle_loop_quiet. destruct user; exact Ht.
  - unfold handleLogout. destruct ok.
    + apply settle_loop_quiet. exact Ht.
    + destruct Hq; split; assumption.
  - apply settle_quiet. exact Ht.
  - apply settle_quiet. exact Ht.
  - apply handleSelectNote_quiet; assumption.
  - apply handleAddNewNote_quiet; assumption.
  - apply settle_quiet. exact Ht.
  - apply settle_quiet. exact Ht.
  - apply handleConfirmDelete_quiet; assumption.
  - apply timeout_fires_quiet; assumption.
  - destruct Hq; split; assumption.
Qed.

Lemma reachable_quiet w : reachable w -> quiet w.
Proof.
  induction 1 as [|w w' _ IH Hs]; [apply mounted_quiet|].
  eapply step_quiet; eassumption.
Qed.

Lemma demo_login_reachable : reachable demo_login.
Proof. eapply reachable_step; [apply reachable_mounted|apply step_auth]. Qed.

Lemma demo_selected_reachable : reachable demo_selected.
Proof.
  eapply reachable_step; [apply demo_login_reachable|].
  apply step_select; [eexists; vm_compute; reflexivity|].
  vm_compute. left. reflexivity.
Qed.

Lemma demo_dirty_reachable : reachable demo_dirty.
Proof.
  eapply reachable_step; [apply demo_selected_reachable|].
  apply step_title.
  - eexists. vm_compute. reflexivity.
  - eexists. vm_compute. reflexivity.
  - vm_compute. reflexivity.
  - vm_compute. discriminate.
Qed.

(** ** The dirty flag (C7) and the lost selection (C8) *)

Lemma differs_true s e :
  differs s e = true <->
  currentTitle s <> Note.title e \/ currentContent s <> Note.content e.
Proof.
  unfold differs. rewrite orb_true_iff, !negb_true_iff.
  rewrite !bool_decide_eq_false. reflexivity.
Qed.

(** C7: in every reachable state, if a note is selected and the list has
    an entry with its id, the dirty flag is true exactly when the title or
    the content of the form differs from that entry; with no note selected
    the dirty flag is false. *)
Theorem dirty_flag_tracks_form w :
  reachable w ->
  (forall sel e,
      selectedNote (st w) = Some sel ->
      find_note (Note.id sel) (notes (st w)) = Some e ->
      (isDirty (st w) = true <->
       currentTitle (st w) <> Note.title e
       \/ currentContent (st w) <> Note.content e))
  /\ (selectedNote (st w) = None -> isDirty (st w) = false).
Proof.
  intros Hr. apply reachable_quiet in Hr. destruct Hr as [_ Hf _].
  apply stable_dirty_tracked in Hf. unfold dirty_tracked in Hf. split.
  - intros sel e Hs He. rewrite Hs in Hf. rewrite (Hf e He). apply differs_true.
  - intros Hs. rewrite Hs in Hf. exact Hf.
Qed.

Lemma dirty_flag_tracks_form_witness :
  reachable demo_dirty
  /\ (isDirty (st demo_dirty) = true <->
      currentTitle (st demo_dirty) <> "A" \/ currentContent (st demo_dirty) <> "x").
Proof.
  split; [apply demo_dirty_reachable|].
  apply (proj1 (dirty_flag_tracks_form demo_dirty demo_dirty_reachable)
           demo_n1 demo_n1); vm_compute; reflexivity.
Defined.

Lemma form_empty_stable s : form_empty s -> form_empty (selection_and_dirty s).
Proof.
  intros (Hs & Ht & Hc & Hd). rewrite selection_and_dirty_eq, Hs.
  repeat split; assumption.
Qed.

(** C8: a selection whose id has no entry in the list does not survive
    the commit: the selection, the title, the content and the dirty flag
    are cleared; and after any commit the selected note, if any, has an
    entry in the list. *)
Theorem lost_selection_empties_form w answer :
  (forall sel,
      selectedNote (st w) = Some sel ->
      find_note (Note.id sel) (notes (st w)) = None ->
      form_empty (st (settle_with answer w)))
  /\ selection_kept (st (settle_with answer w)).
Proof.
  destruct (settle_loop_first false answer w) as (Hs & _).
  fold (settle_with answer w) in Hs. split.
  - intros sel Hsel Hfind. rewrite Hs. apply form_empty_stable.
    unfold form_empty, effects_pass, effect_currentUser, fetchNotes,
      effect_selection, effect_dirty.
    rewrite selection_lost_spec, Hsel, Hfind.
    repeat case_match; simpl; auto.
  - apply stable_selection_kept. rewrite Hs. apply selection_and_dirty_idem.
Qed.

Lemma lost_selection_empties_form_witness :
  selectedNote (st demo_lost) = Some demo_n1
  /\ find_note (Note.id demo_n1) (notes (st demo_lost)) = None
  /\ form_empty (st (settle_with None demo_lost)).
Proof.
  split; [vm_compute; reflexivity|]. split; [vm_compute; reflexivity|].
  apply (proj1 (lost_selection_empties_form demo_lost None) demo_n1);
    vm_compute; reflexivity.
Defined.

(** ** Logout (C6) *)

Lemma selection_and_dirty_notes s : notes (selection_and_dirty s) = notes s.
Proof. rewrite selection_and_dirty_eq. repeat case_match; reflexivity. Qed.

Lemma timer_tracks_unselected s t :
  timer_tracks s t -> selectedNote s = None -> t = None.
Proof.
  destruct t as [tm|]; [|reflexivity]. intros Ht Hs.
  destruct (timer_tracks_pending _ _ Ht) as (sel & Hsel & _). congruence.
Qed.

(** C6: whatever the state, dirty or not, when the identity service
    reports that the session has ended the list of notes is emptied, no
    note is selected, title and content are empty and the dirty flag is
    false; no call reaches the store, and no auto-save stays pending. *)
Theorem logout_clears_notes_and_form w u answer :
  quiet w ->
  currentUser (st w) = Some u ->
  let w' := authStateChanged None answer w in
  notes (st w') = [] /\ form_empty (st w')
  /\ store w' = store w /\ timer w' = None
  /\ handleLogout true w = authStateChanged None None w.
Proof.
  intros Hq Hu w'. pose proof (quiet_tracked w Hq) as Ht.
  destruct Hq as [Hr _ _].
  set (w2 := upd (setSelectedNote None) (upd (setNotes (fun _ => []))
              (upd (setAuthLoading false) (upd (setCurrentUser None) w)))).
  assert (Hw' : w' = settle_loop 4 false answer w2) by reflexivity.
  destruct (settle_loop_first false answer w2) as (Hs & Hrd & Hst & _).
  rewrite <- Hw' in Hs, Hrd, Hst.
  assert (H1 : st (effects_pass false answer w2) =
               setIsDirty false (setCurrentContent EmptyString
                 (setCurrentTitle EmptyString (setIsLoading false (st w2))))
               /\ store (effects_pass false answer w2) = store w).
  { unfold effects_pass. simpl. rewrite Hr, Hu.
    rewrite (bool_decide_eq_false_2 (Some u = None)) by discriminate. simpl.
    unfold effect_selection, effect_dirty, selection_lost. simpl.
    case_match; split; reflexivity. }
  destruct H1 as [H1 H1s].
  assert (Hfe : form_empty (st w')).
  { rewrite Hs. apply form_empty_stable. rewrite H1.
    repeat split; reflexivity. }
  repeat split; try apply Hfe.
  - rewrite Hs, selection_and_dirty_notes, H1. reflexivity.
  - congruence.
  - assert (Hq' : quiet w') by (rewrite Hw'; apply settle_loop_quiet; exact Ht).
    destruct Hq' as [_ _ Htm].
    eapply timer_tracks_unselected; [exact Htm|apply Hfe].
Qed.

Lemma logout_clears_notes_and_form_witness :
  quiet demo_dirty
  /\ currentUser (st demo_dirty) = Some (mkUser "u")
  /\ isDirty (st demo_dirty) = true
  /\ let w' := authStateChanged None None demo_dirty in
     notes (st w') = [] /\ form_empty (st w')
     /\ store w' = store demo_dirty /\ timer w' = None
     /\ handleLogout true demo_dirty = authStateChanged None None demo_dirty.
Proof.
  split; [split; vm_compute; repeat split; reflexivity|].
  split; [vm_compute; reflexivity|]. split; [vm_compute; reflexivity|].
  apply (logout_clears_notes_and_form demo_dirty (mkUser "u") None).
  - split; vm_compute; repeat split; reflexivity.
  - vm_compute. reflexivity.
Defined.

(** ** Saving *)

Lemma replace_saved_id i t c ts n :
  Note.id (replace_saved i t c ts n) = Note.id n.
Proof. unfold replace_saved. case_match; reflexivity. Qed.

Lemma replace_saved_other i t c ts n :
  Note.id n <> i -> replace_saved i t c ts n = n.
Proof.
  intros H. unfold replace_saved. rewrite bool_decide_eq_false_2 by exact H.
  reflexivity.
Qed.

Lemma replace_saved_same i t c ts n :
  Note.id n = i -> replace_saved i t c ts n = merge_update t c ts n.
Proof.
  intros H. unfold replace_saved. rewrite bool_decide_eq_true_2 by exact H.
  reflexivity.
Qed.

Lemma find_note_map_replace i t c ts l :
  find_note i (map (replace_saved i t c ts) l)
  = option_map (merge_update t c ts) (find_note i l).
Proof.
  unfold find_note. induction l as [|n l IH]; [reflexivity|]. simpl.
  rewrite replace_saved_id. case_bool_decide as E; simpl.
  - rewrite replace_saved_same by exact E. reflexivity.
  - exact IH.
Qed.

Lemma find_note_map_other i j t c ts l :
  i <> j ->
  find_note j (map (replace_saved i t c ts) l) = find_note j l.
Proof.
  intros Hij. unfold find_note. induction l as [|n l IH]; [reflexivity|]. simpl.
  rewrite replace_saved_id. case_bool_decide as E; simpl.
  - rewrite replace_saved_other by congruence. reflexivity.
  - exact IH.
Qed.

Lemma selection_and_dirty_found s sel e :
  selectedNote s = Some sel ->
  find_note (Note.id sel) (notes s) = Some e ->
  selection_and_dirty s = setIsDirty (differs s e) s.
Proof. intros Hs He. rewrite selection_and_dirty_eq, Hs, He. reflexivity. Qed.

Lemma saveCurrentNote_spec c sel a w :
  same_user w ->
  selectedNote c = Some sel -> isDirty c = true ->
  let w' := saveCurrentNote c a w in
  let saving := settle (saveCurrentNote_begin c a w) in
  st saving = selection_and_dirty (setIsSaving true (st w))
  /\ st w' = selection_and_dirty (after_save c sel a (st saving))
  /\ rendered w' = st w'
  /\ store w' = store w ++ [UpdateDoc (Note.id sel) (currentTitle c)
                              (currentContent c) (now a)]
  /\ console w' = console w ++ (if resolved a then [] else ["Error saving note:"])
  /\ clock w' = clock w.
Proof.
  intros Hu Hsel Hd w' saving.
  assert (Hb : saveCurrentNote_begin c a w =
               issue (UpdateDoc (Note.id sel) (currentTitle c)
                        (currentContent c) (now a)) (upd (setIsSaving true) w)).
  { unfold saveCurrentNote_begin. rewrite Hsel. reflexivity. }
  assert (Hub : same_user (saveCurrentNote_begin c a w)) by (rewrite Hb; exact Hu).
  assert (Hw' : w' = settle (saveCurrentNote_end c a saving)).
  { unfold w', saveCurrentNote. rewrite Hsel, Hd.
    rewrite bool_decide_eq_true_2 by eauto. reflexivity. }
  set (answered_save := resume (UpdateDoc (Note.id sel) (currentTitle c)
                                  (currentContent c) (now a)) (resolved a) saving).
  assert (He : saveCurrentNote_end c a saving =
               upd (setIsSaving false)
                 (if resolved a
                  then upd (setIsDirty false)
                         (upd (setNotes (map (replace_saved (Note.id sel)
                            (currentTitle c) (currentContent c) (now a))))
                            answered_save)
                  else console_error "Error saving note:" answered_save)).
  { unfold saveCurrentNote_end. rewrite Hsel. reflexivity. }
  assert (Hue : same_user (saveCurrentNote_end c a saving)).
  { rewrite He. pose proof (settle_same_user (saveCurrentNote_begin c a w)) as H.
    fold saving in H. unfold same_user in *. destruct (resolved a); exact H. }
  assert (Hst : st (saveCurrentNote_end c a saving) = after_save c sel a (st saving)).
  { rewrite He. unfold after_save. destruct (resolved a); reflexivity. }
  repeat split.
  - unfold saving. rewrite settle_st by exact Hub. rewrite Hb. reflexivity.
  - rewrite Hw', settle_st by exact Hue. rewrite Hst. reflexivity.
  - rewrite Hw'. apply settle_rendered.
  - rewrite Hw', settle_store by exact Hue. rewrite He.
    transitivity (store saving); [destruct (resolved a); reflexivity|].
    unfold saving. rewrite settle_store by exact Hub. rewrite Hb. reflexivity.
  - rewrite Hw', settle_console by exact Hue. rewrite He.
    assert (Hc : console saving = console w).
    { unfold saving. rewrite settle_console by exact Hub. rewrite Hb. reflexivity. }
    destruct (resolved a); simpl; rewrite Hc; [rewrite app_nil_r|]; reflexivity.
  - rewrite Hw', settle_clock, He.
    transitivity (clock saving); [destruct (resolved a); reflexivity|].
    unfold saving. rewrite settle_clock, Hb. reflexivity.
Qed.

Lemma quiet_steady w : quiet w -> steady w.
Proof. intros [? ? _]. split; assumption. Qed.

Lemma steady_same_user w : steady w -> same_user w.
Proof. intros [Hr _]. unfold same_user. rewrite Hr. reflexivity. Qed.

Lemma setIsSaving_roundtrip s :
  isSaving s = false -> setIsSaving false (setIsSaving true s) = s.
Proof. destruct s; simpl. intros ->. reflexivity. Qed.

Lemma setIsSaving_roundtrip_save f s :
  isSaving s = false ->
  setIsSaving false (setIsDirty false (setNotes f (setIsSaving true s)))
  = setIsDirty false (setNotes f s).
Proof. destruct s; simpl. intros ->. reflexivity. Qed.

Lemma differs_merge_update c e ts :
  differs c (merge_update (currentTitle c) (currentContent c) ts e) = false.
Proof.
  unfold differs. simpl. rewrite !bool_decide_eq_true_2 by reflexivity.
  reflexivity.
Qed.

(** The state in which a save leaves the component. *)
Lemma saveCurrentNote_state sel a w :
  steady w ->
  selectedNote (st w) = Some sel -> isDirty (st w) = true ->
  isSaving (st w) = false ->
  st (settle (saveCurrentNote_begin (st w) a w)) = setIsSaving true (st w)
  /\ st (saveCurrentNote (st w) a w) =
     if resolved a
     then setIsDirty false
            (setNotes (map (replace_saved (Note.id sel) (currentTitle (st w))
                              (currentContent (st w)) (now a))) (st w))
     else st w.
Proof.
  intros Hsteady Hsel Hd Hns.
  pose proof (steady_same_user w Hsteady) as Hu. destruct Hsteady as [Hr Hf].
  destruct (saveCurrentNote_spec (st w) sel a w Hu Hsel Hd)
    as (H1 & H2 & _). cbv zeta in H1, H2.
  destruct (stable_selection_kept _ Hf sel Hsel) as [e He].
  pose proof (stable_dirty_tracked _ Hf) as Hdt. unfold dirty_tracked in Hdt.
  rewrite Hsel in Hdt. specialize (Hdt e He).
  assert (Hs1 : st (settle (saveCurrentNote_begin (st w) a w))
                = setIsSaving true (st w)).
  { rewrite H1.
    rewrite (selection_and_dirty_found _ sel e) by assumption.
    change (differs (setIsSaving true (st w)) e) with (differs (st w) e).
    rewrite <- Hdt. exact (setIsDirty_same (setIsSaving true (st w))). }
  split; [exact Hs1|].
  rewrite H2, Hs1. unfold after_save. destruct (resolved a).
  - rewrite setIsSaving_roundtrip_save by assumption.
    rewrite (selection_and_dirty_found _ sel
               (merge_update (currentTitle (st w)) (currentContent (st w))
                  (now a) e)).
    + change (differs _ _) with
        (differs (st w)
           (merge_update (currentTitle (st w)) (currentContent (st w)) (now a) e)).
      rewrite differs_merge_update. destruct (st w); reflexivity.
    + exact Hsel.
    + simpl. rewrite find_note_map_replace, He. reflexivity.
  - rewrite setIsSaving_roundtrip by assumption. exact Hf.
Qed.

(** ** The list of notes across a save (C10) *)

(** C10: after a save that the store accepted, each position of the list
    holds the note it held before, and only a note whose id is the id of
    the selected note has changed: its title, content and last-modified
    time are those of the save.  The order of the list is the same; the
    list is not sorted again. *)
Theorem save_changes_only_the_saved_entry sel a w :
  steady w ->
  selectedNote (st w) = Some sel -> isDirty (st w) = true ->
  isSaving (st w) = false -> resolved a = true ->
  let w' := saveCurrentNote (st w) a w in
  length (notes (st w')) = length (notes (st w))
  /\ map Note.id (notes (st w')) = map Note.id (notes (st w))
  /\ forall i n,
       nth_error (notes (st w)) i = Some n ->
       nth_error (notes (st w')) i
       = Some (if bool_decide (Note.id n = Note.id sel)
               then Note.mk (Note.id n) (currentTitle (st w))
                      (currentContent (st w)) (Note.createdAt n)
                      (Some (now a)) (Note.userId n)
               else n).
Proof.
  intros Hsteady Hsel Hd Hns Hok w'.
  destruct (saveCurrentNote_state sel a w Hsteady Hsel Hd Hns) as [_ H].
  fold w' in H. rewrite Hok in H. rewrite H. simpl.
  split; [apply length_map|]. split.
  - rewrite map_map. apply map_ext. intros n. apply replace_saved_id.
  - intros i n Hn. rewrite nth_error_map, Hn. reflexivity.
Qed.

Lemma save_changes_only_the_saved_entry_witness :
  steady demo_dirty
  /\ let w' := saveCurrentNote (st demo_dirty) (mkSaveAnswer 77 true) demo_dirty in
     length (notes (st w')) = length (notes (st demo_dirty))
     /\ map Note.id (notes (st w')) = map Note.id (notes (st demo_dirty))
     /\ forall i n,
          nth_error (notes (st demo_dirty)) i = Some n ->
          nth_error (notes (st w')) i
          = Some (if bool_decide (Note.id n = Note.id demo_n1)
                  then Note.mk (Note.id n) (currentTitle (st demo_dirty))
                         (currentContent (st demo_dirty)) (Note.createdAt n)
                         (Some 77) (Note.userId n)
                  else n).
Proof.
  split; [split; vm_compute; reflexivity|].
  apply (save_changes_only_the_saved_entry demo_n1 (mkSaveAnswer 77 true)
           demo_dirty ltac:(split; vm_compute; reflexivity)); vm_compute; reflexivity.
Defined.

(** ** A save, and what follows a rejected one (C3) *)

Lemma fresh_upd f w : fresh w -> fresh (upd f w).
Proof. exact id. Qed.

Lemma fresh_console msg w : fresh w -> fresh (console_error msg w).
Proof. exact id. Qed.

Lemma saveCurrentNote_end_fresh c a w :
  fresh w -> fresh (saveCurrentNote_end c a w).
Proof. intros Ht. unfold saveCurrentNote_end. repeat case_match; exact Ht. Qed.

(** A save started from a committed render with [isSaving] false leaves
    the timeout that the auto-save effect arms for the state it ends in,
    armed at the present time. *)
Lemma saveCurrentNote_timer c sel a w :
  rendered w = st w -> isSaving (st w) = false ->
  selectedNote c = Some sel -> isDirty c = true ->
  tracked (saveCurrentNote c a w) /\ fresh (saveCurrentNote c a w).
Proof.
  intros Hr Hns Hsel Hd. unfold saveCurrentNote. rewrite Hsel, Hd.
  rewrite bool_decide_eq_true_2 by eauto. simpl.
  destruct (settle_changed_tracked (saveCurrentNote_begin c a w)) as [Ht Hf].
  { unfold saveCurrentNote_begin. rewrite Hsel. simpl. rewrite Hr.
    unfold autosave_deps. simpl. rewrite Hns. intros [= _]. }
  split.
  - apply settle_tracked, saveCurrentNote_end_tracked, Ht.
  - apply settle_fresh, saveCurrentNote_end_fresh, Hf.
Qed.

Lemma tracked_armed w :
  tracked w -> rendered w = st w -> autosave_armed (st w) = true ->
  exists t, timer w = Some t /\ autosave_deps (callback t) = autosave_deps (st w).
Proof.
  unfold tracked. intros Ht Hr Ha. rewrite Hr in Ht.
  destruct (timer w) as [t|]; simpl in Ht.
  - exists t. split; [reflexivity|apply Ht].
  - congruence.
Qed.

Lemma tracked_unarmed w :
  tracked w -> rendered w = st w -> autosave_armed (st w) = false ->
  timer w = None.
Proof.
  unfold tracked. intros Ht Hr Ha. rewrite Hr in Ht.
  destruct (timer w) as [t|]; simpl in Ht; [|reflexivity].
  destruct Ht. congruence.
Qed.

(** The one call that the expiry of a timeout sends to the store. *)
Lemma timeout_fires_store a w t sel :
  same_user w ->
  timer w = Some t ->
  selectedNote (callback t) = Some sel -> isDirty (callback t) = true ->
  store (timeout_fires a w)
  = store w ++ [UpdateDoc (Note.id sel) (currentTitle (callback t))
                  (currentContent (callback t)) (now a)].
Proof.
  intros Hu Ht Hsel Hd. unfold timeout_fires. rewrite Ht.
  apply (saveCurrentNote_spec (callback t) sel a (set_timer None w) Hu Hsel Hd).
Qed.

Lemma autosave_armed_dirty s sel :
  selectedNote s = Some sel -> isDirty s = true -> isSaving s = false ->
  autosave_armed s = true.
Proof.
  intros Hs Hd Hn. unfold autosave_armed. rewrite Hs, Hd, Hn.
  rewrite bool_decide_eq_true_2 by eauto. reflexivity.
Qed.




(** ** The auto-save timeout (C1) *)



Lemma edit_eq f v w : edit f v w = settle (upd (setField f v) w).
Proof. destruct f; reflexivity. Qed.





(** ** Keeping track of the user, the list and [isSaving] *)

Lemma same_user_upd f w :
  (forall s, currentUser (f s) = currentUser s) ->
  same_user w -> same_user (upd f w).
Proof. unfold same_user. simpl. intros Hf ->. symmetry. apply Hf. Qed.

Lemma same_user_issue op w : same_user w -> same_user (issue op w).
Proof. exact id. Qed.

Lemma same_user_console msg w : same_user w -> same_user (console_error msg w).
Proof. exact id. Qed.

Lemma same_user_resume op ok w : same_user w -> same_user (resume op ok w).
Proof. exact id. Qed.

Lemma same_user_begin c a w :
  same_user w -> same_user (saveCurrentNote_begin c a w).
Proof. intros H. unfold saveCurrentNote_begin. case_match; exact H. Qed.

Lemma same_user_end c a w :
  same_user w -> same_user (saveCurrentNote_end c a w).
Proof. intros H. unfold saveCurrentNote_end. repeat case_match; exact H. Qed.

Lemma same_user_delete_locally c d w :
  same_user w -> same_user (delete_locally c d w).
Proof. intros H. unfold delete_locally. repeat case_match; exact H. Qed.

Lemma same_user_saveCurrentNote c a w :
  same_user w -> same_user (saveCurrentNote c a w).
Proof.
  intros H. unfold saveCurrentNote. case_match; [apply settle_same_user|exact H].
Qed.

Ltac keep_user :=
  repeat match goal with
    | |- same_user (settle _) => apply settle_same_user
    | |- same_user (saveCurrentNote _ _ _) => apply same_user_saveCurrentNote
    | |- same_user (saveCurrentNote_begin _ _ _) => apply same_user_begin
    | |- same_user (saveCurrentNote_end _ _ _) => apply same_user_end
    | |- same_user (delete_locally _ _ _) => apply same_user_delete_locally
    | |- same_user (upd _ _) => apply same_user_upd; [intros; reflexivity|]
    | |- same_user (issue _ _) => apply same_user_issue
    | |- same_user (resume _ _ _) => apply same_user_resume
    | |- same_user (console_error _ _) => apply same_user_console
    | |- same_user (if _ then _ else _) => case_match
    | |- same_user _ => assumption
    end.

Lemma selection_and_dirty_isSaving s :
  isSaving (selection_and_dirty s) = isSaving s.
Proof. rewrite selection_and_dirty_eq. repeat case_match; reflexivity. Qed.

Lemma selection_and_dirty_modal s :
  showDeleteModal (selection_and_dirty s) = showDeleteModal s
  /\ noteToDelete (selection_and_dirty s) = noteToDelete s.
Proof. rewrite selection_and_dirty_eq. repeat case_match; split; reflexivity. Qed.

(** The effects leave the state alone when only [isSaving] or the cells
    of the confirmation dialog were written in a steady state. *)
Lemma selection_and_dirty_frame (f : State -> State) s :
  (forall x, selectedNote (f x) = selectedNote x /\ notes (f x) = notes x
             /\ currentTitle (f x) = currentTitle x
             /\ currentContent (f x) = currentContent x) ->
  (forall d x, f (setIsDirty d x) = setIsDirty d (f x)) ->
  (forall x, f (setIsDirty false (setCurrentContent EmptyString
                (setCurrentTitle EmptyString (setSelectedNote None x))))
             = setIsDirty false (setCurrentContent EmptyString
                (setCurrentTitle EmptyString (setSelectedNote None (f x))))) ->
  selection_and_dirty (f s) = f (selection_and_dirty s).
Proof.
  intros Hf Hd Hc. rewrite !selection_and_dirty_eq.
  destruct (Hf s) as (-> & -> & Ht & Hco).
  destruct (selectedNote s) as [sel|]; [|symmetry; apply Hd].
  destruct (find_note (Note.id sel) (notes s)) as [e|].
  - rewrite Hd. unfold differs. rewrite Ht, Hco. reflexivity.
  - symmetry. apply Hc.
Qed.

Lemma steady_setIsSaving b s :
  selection_and_dirty s = s ->
  selection_and_dirty (setIsSaving b s) = setIsSaving b s.
Proof.
  intros H. rewrite (selection_and_dirty_frame (setIsSaving b)), H; auto.
Qed.

(** A note that is the entry of the list for its id, once loaded, is
    clean. *)
Lemma load_note_steady n s :
  find_note (Note.id n) (notes s) = Some n ->
  selection_and_dirty (load_note n s) = load_note n s.
Proof.
  intros Hn. rewrite (selection_and_dirty_found _ n n); [|reflexivity|exact Hn].
  unfold differs. simpl. rewrite !bool_decide_eq_true_2 by reflexivity.
  reflexivity.
Qed.

(** ** Selecting a note (C2) *)

Lemma must_flush_true c n :
  must_flush c n = true <->
  exists sel, selectedNote c = Some sel /\ Note.id sel <> Note.id n
              /\ isDirty c = true.
Proof.
  unfold must_flush. destruct (selectedNote c) as [sel|].
  - rewrite andb_true_iff, negb_true_iff, bool_decide_eq_false. split.
    + intros [? ?]. exists sel. auto.
    + intros (? & [= <-] & ? & ?). auto.
  - split; [discriminate|]. intros (? & [=] & _).
Qed.

(** The one answer that a save awaits, and the state it comes back to. *)
Lemma saveCurrentNote_answers c sel a w :
  same_user w -> selectedNote c = Some sel -> isDirty c = true ->
  answers (saveCurrentNote c a w)
  = answers w ++ [mkAnswer (UpdateDoc (Note.id sel) (currentTitle c)
                              (currentContent c) (now a))
                    (resolved a) (st (settle (saveCurrentNote_begin c a w)))].
Proof.
  intros Hu Hsel Hd. unfold saveCurrentNote. rewrite Hsel, Hd.
  rewrite bool_decide_eq_true_2 by eauto. cbn [andb].
  rewrite settle_answers by keep_user.
  assert (Ha : answers (settle (saveCurrentNote_begin c a w)) = answers w).
  { rewrite settle_answers by keep_user.
    unfold saveCurrentNote_begin. rewrite Hsel. reflexivity. }
  revert Ha. generalize (settle (saveCurrentNote_begin c a w)). intros saving Ha.
  unfold saveCurrentNote_end. rewrite Hsel.
  destruct (resolved a); cells; rewrite Ha; reflexivity.
Qed.

(** C2, as the code has it: when the form is dirty and the note that is
    clicked has another id than the selected one, [handleSelectNote] sends
    one save of the form and awaits it: the log of answers gains exactly
    the answer to that save (accepted or rejected), and the handler
    resumed from it in the state of the click with only [isSaving] set, so
    the edited note was still selected and the form still held the edit
    when the save came back; the clicked note is in the form only
    afterwards.  An accepted save is in the list, a rejected one on the
    console.  A click on the selected note itself, or with a clean form,
    sends nothing and awaits nothing.  In all cases the form ends with the
    title and the content of the clicked note and is clean. *)
Theorem select_flushes_then_loads n a w :
  steady w -> isSaving (st w) = false ->
  find_note (Note.id n) (notes (st w)) = Some n ->
  let w' := handleSelectNote (st w) n a w in
  (selectedNote (st w') = Some n /\ currentTitle (st w') = Note.title n
   /\ currentContent (st w') = Note.content n /\ isDirty (st w') = false)
  /\ (forall sel,
        selectedNote (st w) = Some sel -> isDirty (st w) = true ->
        Note.id sel <> Note.id n ->
        let update := UpdateDoc (Note.id sel) (currentTitle (st w))
                        (currentContent (st w)) (now a) in
        store w' = store w ++ [update]
        /\ answers w'
           = answers w ++ [mkAnswer update (resolved a)
                             (setIsSaving true (st w))]
        /\ notes (st w')
           = (if resolved a
              then map (replace_saved (Note.id sel) (currentTitle (st w))
                          (currentContent (st w)) (now a)) (notes (st w))
              else notes (st w))
        /\ console w'
           = console w ++ (if resolved a then [] else ["Error saving note:"])
        /\ isSaving (st w') = false)
  /\ (forall sel,
        selectedNote (st w) = Some sel -> Note.id sel = Note.id n ->
        store w' = store w /\ answers w' = answers w)
  /\ (isDirty (st w) = false -> store w' = store w /\ answers w' = answers w).
Proof.
  intros Hsteady Hns Hn w'.
  pose proof (steady_same_user w Hsteady) as Hu.
  set (saved := saveCurrentNote (st w) a w).
  set (w1 := if must_flush (st w) n then saved else w).
  assert (Hw' : w' = settle (upd (load_note n) w1)) by reflexivity.
  assert (Hu1 : same_user (upd (load_note n) w1)).
  { unfold w1, saved. keep_user. }
  assert (Hst : st w' = selection_and_dirty (load_note n (st w1))).
  { rewrite Hw', settle_st by exact Hu1. reflexivity. }
  assert (Hstore : store w' = store w1).
  { rewrite Hw', settle_store by exact Hu1. reflexivity. }
  assert (Hanswers : answers w' = answers w1).
  { rewrite Hw', settle_answers by exact Hu1. reflexivity. }
  assert (Hconsole : console w' = console w1).
  { rewrite Hw', settle_console by exact Hu1. reflexivity. }
  assert (Hsaved : forall sel,
             selectedNote (st w) = Some sel -> isDirty (st w) = true ->
             st saved = if resolved a
                        then setIsDirty false
                               (setNotes (map (replace_saved (Note.id sel)
                                  (currentTitle (st w)) (currentContent (st w))
                                  (now a))) (st w))
                        else st w).
  { intros sel Hsel Hd.
    apply (saveCurrentNote_state sel a w Hsteady Hsel Hd Hns). }
  assert (Hfind : find_note (Note.id n) (notes (st w1)) = Some n).
  { unfold w1. destruct (must_flush (st w) n) eqn:Hm; [|exact Hn].
    apply must_flush_true in Hm. destruct Hm as (sel & Hsel & Hid & Hd).
    rewrite (Hsaved sel Hsel Hd). destruct (resolved a); [|exact Hn].
    simpl. rewrite find_note_map_other by exact Hid. exact Hn. }
  rewrite (load_note_steady n (st w1) Hfind) in Hst.
  split; [rewrite Hst; repeat split; reflexivity|].
  split; [|split].
  - intros sel Hsel Hd Hid update.
    assert (Hm : must_flush (st w) n = true) by (apply must_flush_true; eauto).
    unfold w1 in Hst, Hstore, Hanswers, Hconsole.
    rewrite Hm in Hst, Hstore, Hanswers, Hconsole.
    destruct (saveCurrentNote_spec (st w) sel a w Hu Hsel Hd)
      as (_ & _ & _ & Hss & Hsc & _).
    fold saved in Hss, Hsc.
    pose proof (saveCurrentNote_answers (st w) sel a w Hu Hsel Hd) as Hsa.
    fold saved in Hsa.
    destruct (saveCurrentNote_state sel a w Hsteady Hsel Hd Hns) as [Hsaving _].
    rewrite Hsaving in Hsa.
    split; [rewrite Hstore; exact Hss|].
    split; [rewrite Hanswers; exact Hsa|].
    rewrite Hst, (Hsaved sel Hsel Hd).
    split; [destruct (resolved a); reflexivity|].
    split; [rewrite Hconsole; exact Hsc|].
    destruct (resolved a); exact Hns.
  - intros sel Hsel Hid. rewrite Hstore, Hanswers. unfold w1, must_flush.
    rewrite Hsel, (bool_decide_eq_true_2 _ Hid). split; reflexivity.
  - intros Hd. rewrite Hstore, Hanswers. unfold w1, must_flush. rewrite Hd.
    destruct (selectedNote (st w)); [rewrite andb_false_r|]; split; reflexivity.
Qed.

Lemma select_flushes_then_loads_witness :
  steady demo_dirty
  /\ find_note (Note.id demo_n2) (notes (st demo_dirty)) = Some demo_n2
  /\ selectedNote (st demo_dirty) = Some demo_n1
  /\ let a := mkSaveAnswer 77 true in
     let w' := handleSelectNote (st demo_dirty) demo_n2 a demo_dirty in
     let update := UpdateDoc (Note.id demo_n1) (currentTitle (st demo_dirty))
                     (currentContent (st demo_dirty)) (now a) in
     selectedNote (st w') = Some demo_n2
     /\ store w' = store demo_dirty ++ [update]
     /\ answers w'
        = answers demo_dirty ++ [mkAnswer update (resolved a)
                                   (setIsSaving true (st demo_dirty))].
Proof.
  split; [split; vm_compute; reflexivity|]. split; [vm_compute; reflexivity|].
  split; [vm_compute; reflexivity|].
  pose proof (select_flushes_then_loads demo_n2 (mkSaveAnswer 77 true) demo_dirty
                ltac:(split; vm_compute; reflexivity)
                ltac:(vm_compute; reflexivity)
                ltac:(vm_compute; reflexivity)) as H.
  cbv zeta in H |- *. destruct H as ((H1 & _) & H2 & _).
  specialize (H2 demo_n1 ltac:(vm_compute; reflexivity)
                ltac:(vm_compute; reflexivity) ltac:(vm_compute; discriminate)).
  destruct H2 as (H2 & H3 & _).
  split; [exact H1|]. split; [exact H2|exact H3].
Defined.

(** The claim of C2 that every selection made with a dirty form saves it
    first fails when the selected note itself is clicked: the title in the
    form was changed from A to B; after the click nothing has been sent to
    the store, and the form shows A again and is clean. *)
Lemma select_same_note_drops_the_edit :
  isDirty (st demo_dirty) = true
  /\ currentTitle (st demo_dirty) = "B"
  /\ store (handleSelectNote (st demo_dirty) demo_n1 (mkSaveAnswer 77 true)
              demo_dirty) = store demo_dirty
  /\ currentTitle (st (handleSelectNote (st demo_dirty) demo_n1
                         (mkSaveAnswer 77 true) demo_dirty)) = "A"
  /\ isDirty (st (handleSelectNote (st demo_dirty) demo_n1
                    (mkSaveAnswer 77 true) demo_dirty)) = false
  /\ notes (st (handleSelectNote (st demo_dirty) demo_n1
                  (mkSaveAnswer 77 true) demo_dirty)) = [demo_n1; demo_n2].
Proof. vm_compute. repeat split; reflexivity. Qed.

(** ** Deleting a note (C4) *)

Lemma find_note_filter_other i d l :
  i <> d ->
  find_note i (List.filter (fun n => negb (bool_decide (Note.id n = d))) l)
  = find_note i l.
Proof.
  intros Hid. unfold find_note. induction l as [|n l IH]; [reflexivity|]. simpl.
  destruct (decide (Note.id n = d)) as [E|E].
  - rewrite (bool_decide_eq_true_2 _ E). simpl.
    rewrite bool_decide_eq_false_2 by congruence. exact IH.
  - rewrite (bool_decide_eq_false_2 _ E). simpl. rewrite IH. reflexivity.
Qed.

Lemma steady_modal (g : bool -> bool) (h : option string -> option string) s :
  selection_and_dirty s = s ->
  let f := fun x => setNoteToDelete (h (noteToDelete x))
                      (setShowDeleteModal (g (showDeleteModal x)) x) in
  selection_and_dirty (f s) = f s.
Proof.
  intros H f. rewrite (selection_and_dirty_frame f), H; auto.
Qed.

(** C4: asking to delete a note records its id and opens the dialog, and
    nothing else changes; cancelling closes the dialog and forgets the id,
    and nothing else changes.  Confirming sends one delete to the store;
    when the store accepts it, the entries with that id leave the list
    and, if the selected note has that id, the form is emptied and no note
    is selected (with another id selected the form is kept); the dialog is
    closed either way. *)
Theorem delete_is_two_phase d ok w :
  steady w -> isSaving (st w) = false ->
  (st (handleDeleteNote d w)
     = setShowDeleteModal true (setNoteToDelete (Some d) (st w))
   /\ store (handleDeleteNote d w) = store w)
  /\ (st (handleCloseDeleteModal w) = closeDeleteModal (st w)
      /\ store (handleCloseDeleteModal w) = store w)
  /\ (noteToDelete (st w) = Some d -> d <> EmptyString ->
      let w' := handleConfirmDelete (st w) ok w in
      store w' = store w ++ [DeleteDoc d]
      /\ noteToDelete (st w') = None /\ showDeleteModal (st w') = false
      /\ isSaving (st w') = false
      /\ (ok = true ->
          notes (st w')
          = List.filter (fun n => negb (bool_decide (Note.id n = d))) (notes (st w))
          /\ (forall sel, selectedNote (st w) = Some sel -> Note.id sel = d ->
                form_empty (st w'))
          /\ (forall sel, selectedNote (st w) = Some sel -> Note.id sel <> d ->
                selectedNote (st w') = Some sel
                /\ currentTitle (st w') = currentTitle (st w)
                /\ currentContent (st w') = currentContent (st w)))
      /\ (ok = false ->
          st w' = closeDeleteModal (st w)
          /\ console w' = console w ++ ["Error deleting note:"])).
Proof.
  intros Hsteady Hns.
  pose proof (steady_same_user w Hsteady) as Hu. destruct Hsteady as [Hr Hf].
  split; [|split].
  - unfold handleDeleteNote. rewrite settle_st, settle_store by keep_user.
    split; [|reflexivity]. simpl.
    apply (steady_modal (fun _ => true) (fun _ => Some d) _ Hf).
  - unfold handleCloseDeleteModal. rewrite settle_st, settle_store by keep_user.
    split; [|reflexivity]. simpl.
    apply (steady_modal (fun _ => false) (fun _ => None) _ Hf).
  - intros Hd Hne w'.
    set (w1 := settle (upd (setIsSaving true) w)).
    set (w3 := if ok
               then delete_locally (st w) d
                      (resume (DeleteDoc d) ok (issue (DeleteDoc d) w1))
               else console_error "Error deleting note:"
                      (resume (DeleteDoc d) ok (issue (DeleteDoc d) w1))).
    assert (Hw' : w' = settle (upd closeDeleteModal (upd (setIsSaving false) w3))).
    { unfold w', handleConfirmDelete. rewrite Hd.
      rewrite bool_decide_eq_false_2 by exact Hne. reflexivity. }
    assert (Hu1 : same_user (upd (setIsSaving true) w)) by keep_user.
    assert (Hs1 : st w1 = setIsSaving true (st w)).
    { unfold w1. rewrite settle_st by exact Hu1. simpl.
      apply steady_setIsSaving, Hf. }
    assert (Hst1 : store w1 = store w /\ console w1 = console w).
    { unfold w1. rewrite settle_store, settle_console by exact Hu1.
      split; reflexivity. }
    assert (Hu3 : same_user (upd closeDeleteModal (upd (setIsSaving false) w3))).
    { unfold w3, w1. keep_user. }
    assert (Hst : st w' = selection_and_dirty
                            (closeDeleteModal (setIsSaving false (st w3)))).
    { rewrite Hw', settle_st by exact Hu3. reflexivity. }
    assert (Hstore : store w3 = store w ++ [DeleteDoc d]).
    { unfold w3, delete_locally. destruct Hst1 as [<- _].
      repeat case_match; reflexivity. }
    split.
    { rewrite Hw', settle_store by exact Hu3. exact Hstore. }
    destruct (selection_and_dirty_modal
                (closeDeleteModal (setIsSaving false (st w3)))) as [Hm1 Hm2].
    rewrite <- Hst in Hm1, Hm2.
    split; [exact Hm2|]. split; [exact Hm1|].
    split; [rewrite Hst, selection_and_dirty_isSaving; reflexivity|].
    split.
    + intros ->. split; [|split].
      * rewrite Hst, selection_and_dirty_notes. unfold w3, delete_locally.
        transitivity (List.filter (fun n => negb (bool_decide (Note.id n = d)))
                        (notes (st w1))); [|rewrite Hs1; reflexivity].
        repeat case_match; reflexivity.
      * intros sel Hsel Hid. rewrite Hst. apply form_empty_stable.
        unfold w3, delete_locally. rewrite Hsel.
        rewrite bool_decide_eq_true_2 by exact Hid.
        repeat split; reflexivity.
      * intros sel Hsel Hid.
        destruct (stable_selection_kept _ Hf sel Hsel) as [e He].
        assert (H3 : st w3 = setNotes (List.filter
                       (fun n => negb (bool_decide (Note.id n = d))))
                       (setIsSaving true (st w))).
        { unfold w3, delete_locally. rewrite Hsel.
          rewrite bool_decide_eq_false_2 by exact Hid. simpl.
          rewrite Hs1. reflexivity. }
        rewrite Hst, H3.
        rewrite (selection_and_dirty_found _ sel e).
        -- repeat split; reflexivity || exact Hsel.
        -- exact Hsel.
        -- simpl. rewrite find_note_filter_other by exact Hid. exact He.
    + intros ->. split.
      * rewrite Hst. unfold w3. simpl. rewrite Hs1.
        rewrite setIsSaving_roundtrip by exact Hns.
        apply (steady_modal (fun _ => false) (fun _ => None) _ Hf).
      * rewrite Hw', settle_console by exact Hu3. unfold w3. simpl.
        destruct Hst1 as [_ ->]. reflexivity.
Qed.

Lemma delete_is_two_phase_witness :
  steady demo_pending
  /\ noteToDelete (st demo_pending) = Some "n1"
  /\ let w' := handleConfirmDelete (st demo_pending) true demo_pending in
     store w' = store demo_pending ++ [DeleteDoc "n1"]
     /\ noteToDelete (st w') = None /\ showDeleteModal (st w') = false
     /\ isSaving (st w') = false.
Proof.
  split; [split; vm_compute; reflexivity|]. split; [vm_compute; reflexivity|].
  pose proof (proj2 (proj2 (delete_is_two_phase "n1" true demo_pending
                              ltac:(split; vm_compute; reflexivity)
                              ltac:(vm_compute; reflexivity)))
                ltac:(vm_compute; reflexivity) ltac:(discriminate)) as H.
  cbv zeta in H |- *. destruct H as (H1 & H2 & H3 & H4 & _).
  repeat split; assumption.
Defined.

(** ** A new note (C5, C9) *)

Lemma saveCurrentNote_end_st c sel a w :
  selectedNote c = Some sel ->
  st (saveCurrentNote_end c a w) = after_save c sel a (st w)
  /\ store (saveCurrentNote_end c a w) = store w.
Proof.
  intros Hsel. unfold saveCurrentNote_end, after_save. rewrite Hsel.
  destruct (resolved a); split; reflexivity.
Qed.

Lemma saveCurrentNote_steady_state c sel a w :
  same_user w -> selectedNote c = Some sel -> isDirty c = true ->
  selection_and_dirty (st (saveCurrentNote c a w)) = st (saveCurrentNote c a w).
Proof.
  intros Hu Hsel Hd.
  destruct (saveCurrentNote_spec c sel a w Hu Hsel Hd) as (_ & H & _).
  cbv zeta in H. rewrite H. apply selection_and_dirty_idem.
Qed.

Lemma steady_setIsSaving_comm b s :
  selection_and_dirty (setIsSaving b s) = setIsSaving b (selection_and_dirty s).
Proof. apply (selection_and_dirty_frame (setIsSaving b)); auto. Qed.

Lemma find_note_head n l : find_note (Note.id n) (n :: l) = Some n.
Proof.
  unfold find_note. simpl. rewrite bool_decide_eq_true_2 by reflexivity.
  reflexivity.
Qed.

Lemma must_flush_fresh s n :
  (forall sel, selectedNote s = Some sel -> Note.id sel <> Note.id n) ->
  must_flush s n = bool_decide (is_Some (selectedNote s)) && isDirty s.
Proof.
  intros Hfresh. unfold must_flush. destruct (selectedNote s) as [sel|].
  - rewrite (bool_decide_eq_false_2 _ (Hfresh sel eq_refl)).
    rewrite bool_decide_eq_true_2 by eauto. reflexivity.
  - rewrite bool_decide_eq_false_2 by (intros [? ?]; discriminate). reflexivity.
Qed.

(** The end of [handleAddNewNote] when [handleSelectNote] has nothing to
    save. *)
Lemma add_then_select n op w :
  same_user w -> selection_and_dirty (st w) = st w ->
  let w' := settle (upd (setIsSaving false) (upd (load_note n)
              (upd (setNotes (cons n))
                 (resume op true
                    (issue op (settle (upd (setIsSaving true) w))))))) in
  st w' = setIsSaving false (load_note n (setNotes (cons n) (st w)))
  /\ store w' = store w ++ [op].
Proof.
  intros Hu Hf w'. unfold w'.
  rewrite settle_st, settle_store by keep_user. cells.
  rewrite settle_st, settle_store by keep_user. cells.
  rewrite (steady_setIsSaving true (st w) Hf).
  split; [|reflexivity].
  rewrite steady_setIsSaving_comm.
  rewrite load_note_steady by apply find_note_head.
  reflexivity.
Qed.

(** The end of [handleAddNewNote] when [handleSelectNote] saves the form of
    the render [c] once more. *)
Lemma add_then_flush_and_select c sel a n op w :
  same_user w -> selection_and_dirty (st w) = st w ->
  selectedNote c = Some sel -> Note.id sel <> Note.id n ->
  let w' := settle (upd (load_note n)
              (settle (saveCurrentNote_end c a
                 (settle (upd (setIsSaving false)
                    (saveCurrentNote_begin c a
                       (upd (setNotes (cons n))
                          (resume op true
                             (issue op
                                (settle (upd (setIsSaving true) w))))))))))) in
  notes (st w')
  = n :: (if resolved a
          then map (replace_saved (Note.id sel) (currentTitle c)
                      (currentContent c) (now a)) (notes (st w))
          else notes (st w))
  /\ selectedNote (st w') = Some n
  /\ currentTitle (st w') = Note.title n
  /\ currentContent (st w') = Note.content n
  /\ isDirty (st w') = false
  /\ isSaving (st w') = false
  /\ store w' = store w ++ [op; UpdateDoc (Note.id sel) (currentTitle c)
                                  (currentContent c) (now a)].
Proof.
  intros Hu Hf Hsel Hid w'. unfold w'.
  set (w6 := settle (upd (setIsSaving false)
               (saveCurrentNote_begin c a
                  (upd (setNotes (cons n))
                     (resume op true
                        (issue op (settle (upd (setIsSaving true) w)))))))).
  assert (H6 : notes (st w6) = n :: notes (st w)
               /\ store w6 = store w ++ [op; UpdateDoc (Note.id sel)
                    (currentTitle c) (currentContent c) (now a)]).
  { unfold w6, saveCurrentNote_begin. rewrite Hsel.
    rewrite settle_st, settle_store by keep_user.
    rewrite selection_and_dirty_notes. cells.
    rewrite settle_st, settle_store by keep_user.
    rewrite selection_and_dirty_notes. cells.
    rewrite <- app_assoc. split; reflexivity. }
  destruct H6 as [Hn6 Hs6].
  assert (Hu6 : same_user w6) by apply settle_same_user.
  clearbody w6.
  destruct (saveCurrentNote_end_st c sel a w6 Hsel) as [He Hse].
  rewrite (settle_st (upd _ _)), (settle_store (upd _ _)) by keep_user. cells.
  rewrite settle_st, settle_store by keep_user. rewrite He, Hse.
  assert (Hn7 : notes (selection_and_dirty (after_save c sel a (st w6)))
                = n :: (if resolved a
                        then map (replace_saved (Note.id sel) (currentTitle c)
                                    (currentContent c) (now a)) (notes (st w))
                        else notes (st w))).
  { rewrite selection_and_dirty_notes. unfold after_save.
    destruct (resolved a); cells; rewrite Hn6; [|reflexivity].
    cbn [map]. rewrite replace_saved_other by congruence. reflexivity. }
  rewrite load_note_steady by (rewrite Hn7; apply find_note_head).
  cells. split; [exact Hn7|].
  do 4 (split; [reflexivity|]). split.
  - rewrite selection_and_dirty_isSaving. reflexivity.
  - exact Hs6.
Qed.

(** [handleAddNewNote] for a signed-in user, an accepted creation and a new
    id that is not the id of the selected note. *)
Lemma handleAddNewNote_accepted a1 t1 t2 new_id a2 u w :
  currentUser (st w) = Some u ->
  (forall sel, selectedNote (st w) = Some sel -> Note.id sel <> new_id) ->
  let newNote := Note.mk new_id "Untitled Note" EmptyString (Some t1) (Some t2)
                   (Some (uid u)) in
  let create := AddDoc "Untitled Note" EmptyString t1 t2 (uid u) in
  handleAddNewNote (st w) a1 t1 t2 (Some new_id) a2 w
  = if bool_decide (is_Some (selectedNote (st w))) && isDirty (st w)
    then settle (upd (load_note newNote)
           (settle (saveCurrentNote_end (st w) a2
              (settle (upd (setIsSaving false)
                 (saveCurrentNote_begin (st w) a2
                    (upd (setNotes (cons newNote))
                       (resume create true (issue create
                          (settle (upd (setIsSaving true)
                             (saveCurrentNote (st w) a1 w))))))))))))
    else settle (upd (setIsSaving false) (upd (load_note newNote)
           (upd (setNotes (cons newNote))
              (resume create true
                 (issue create (settle (upd (setIsSaving true) w))))))).
Proof.
  intros Hcu Hfresh newNote create.
  pose proof (must_flush_fresh (st w) newNote Hfresh) as Hmf.
  unfold handleAddNewNote. cbv zeta. rewrite Hcu.
  fold newNote. fold create. rewrite Hmf.
  destruct (bool_decide (is_Some (selectedNote (st w))) && isDirty (st w));
    reflexivity.
Qed.




(** C9, as the code has it: the note is built with two readings of the
    clock, the first for the creation time and the second for the
    last-modified time; the call to the store and the entry put in the list
    carry these two readings, so the two times of a new note are equal
    exactly when the two readings are. *)
Theorem new_note_times_are_two_clock_readings a1 t1 t2 new_id a2 u w :
  steady w -> isSaving (st w) = false ->
  currentUser (st w) = Some u ->
  (forall sel, selectedNote (st w) = Some sel -> Note.id sel <> new_id) ->
  let w' := handleAddNewNote (st w) a1 t1 t2 (Some new_id) a2 w in
  exists created rest,
    notes (st w') = created :: rest
    /\ Note.id created = new_id
    /\ Note.createdAt created = Some t1
    /\ Note.lastModified created = Some t2
    /\ In (AddDoc "Untitled Note" EmptyString t1 t2 (uid u)) (store w')
    /\ (Note.createdAt created = Note.lastModified created <-> t1 = t2).
Proof.
  intros Hsteady Hns Hcu Hfresh w'. subst w'.
  pose proof (steady_same_user w Hsteady) as Hu.
  rewrite (handleAddNewNote_accepted a1 t1 t2 new_id a2 u w Hcu Hfresh).
  cbv zeta.
  set (newNote := Note.mk new_id "Untitled Note" EmptyString (Some t1) (Some t2)
                    (Some (uid u))).
  set (create := AddDoc "Untitled Note" EmptyString t1 t2 (uid u)).
  assert (Htimes : Note.id newNote = new_id
            /\ Note.createdAt newNote = Some t1
            /\ Note.lastModified newNote = Some t2
            /\ (Note.createdAt newNote = Note.lastModified newNote <-> t1 = t2)).
  { do 3 (split; [reflexivity|]). cbn.
    split; [intros [= ->]; reflexivity|intros ->; reflexivity]. }
  destruct Htimes as (Hi & Hc & Hm & Heq).
  destruct (bool_decide (is_Some (selectedNote (st w))) && isDirty (st w))
    eqn:Hfl.
  - apply andb_prop in Hfl as [Hsome Hd].
    apply bool_decide_eq_true_1 in Hsome. destruct Hsome as [sel Hsel].
    destruct (add_then_flush_and_select (st w) sel a2 newNote create
                (saveCurrentNote (st w) a1 w))
      as (Hn & _ & _ & _ & _ & _ & Hst).
    { keep_user. }
    { apply (saveCurrentNote_steady_state _ sel); assumption. }
    { exact Hsel. }
    { apply Hfresh. exact Hsel. }
    eexists newNote, _. split; [exact Hn|].
    do 3 (split; [assumption|]). split; [|exact Heq].
    rewrite Hst. apply in_or_app. right. left. reflexivity.
  - destruct Hsteady as [_ Hf].
    destruct (add_then_select newNote create w Hu Hf) as [Hs Hst].
    cbv zeta in Hs, Hst.
    exists newNote, (notes (st w)). split; [rewrite Hs; reflexivity|].
    do 3 (split; [assumption|]). split; [|exact Heq].
    rewrite Hst. apply in_or_app. right. left. reflexivity.
Qed.

Lemma new_note_times_are_two_clock_readings_witness :
  steady demo_selected
  /\ currentUser (st demo_selected) = Some (mkUser "u")
  /\ exists created rest,
       notes (st (handleAddNewNote (st demo_selected) (mkSaveAnswer 0 true)
                    100 101 (Some "n3") (mkSaveAnswer 0 true) demo_selected))
       = created :: rest
       /\ Note.id created = "n3"
       /\ Note.createdAt created = Some 100
       /\ Note.lastModified created = Some 101
       /\ In (AddDoc "Untitled Note" EmptyString 100 101 (uid (mkUser "u")))
            (store (handleAddNewNote (st demo_selected) (mkSaveAnswer 0 true)
                      100 101 (Some "n3") (mkSaveAnswer 0 true) demo_selected))
       /\ (Note.createdAt created = Note.lastModified created <-> 100 = 101).
Proof.
  split; [split; vm_compute; reflexivity|]. split; [vm_compute; reflexivity|].
  apply (new_note_times_are_two_clock_readings (mkSaveAnswer 0 true) 100 101
           "n3" (mkSaveAnswer 0 true) (mkUser "u") demo_selected
           ltac:(split; vm_compute; reflexivity)).
  - vm_compute. reflexivity.
  - vm_compute. reflexivity.
  - intros sel. vm_compute. intros [= <-]. discriminate.
Defined.

(** The claim of C9 that the two times of a new note are equal fails when
    the clock moves between the two readings: with readings 100 and 101
    the store is asked to create a note with creation time 100 and
    last-modified time 101, and the entry in front of the list has these
    two different times. *)
Lemma new_note_times_can_differ :
  store demo_added
  = store demo_selected ++ [AddDoc "Untitled Note" EmptyString 100 101 "u"]
  /\ option_map Note.createdAt (head (notes (st demo_added))) = Some (Some 100)
  /\ option_map Note.lastModified (head (notes (st demo_added))) = Some (Some 101)
  /\ option_map Note.createdAt (head (notes (st demo_added)))
     <> option_map Note.lastModified (head (notes (st demo_added))).
Proof. vm_compute. repeat split; try reflexivity. discriminate. Qed.

(** ** Cells that the effects and the handlers of the page leave alone *)

Lemma pass_session m a w :
  same_session (st w) (st (effects_pass m a w))
  /\ same_dialog (st w) (st (effects_pass m a w)).
Proof.
  unfold effects_pass, effect_currentUser, fetchNotes, effect_selection,
    effect_dirty, same_session, same_dialog.
  repeat case_match; repeat split; simpl; congruence.
Qed.

Lemma same_session_trans s1 s2 s3 :
  same_session s1 s2 -> same_session s2 s3 -> same_session s1 s3.
Proof. unfold same_session. intros (? & ? & ?) (? & ? & ?). repeat split; congruence. Qed.

Lemma same_dialog_trans s1 s2 s3 :
  same_dialog s1 s2 -> same_dialog s2 s3 -> same_dialog s1 s3.
Proof. unfold same_dialog. intros (? & ?) (? & ?). split; congruence. Qed.

Lemma settle_loop_session n m a w :
  same_session (st w) (st (settle_loop n m a w))
  /\ same_dialog (st w) (st (settle_loop n m a w)).
Proof.
  apply (settle_loop_ind
           (fun x => same_session (st w) (st x) /\ same_dialog (st w) (st x))).
  - intros m' x [H1 H2]. destruct (pass_session m' a x) as [H3 H4].
    split; [eapply same_session_trans|eapply same_dialog_trans]; eassumption.
  - split; repeat split; reflexivity.
Qed.

Lemma settle_session w :
  currentUser (st (settle w)) = currentUser (st w)
  /\ authLoading (st (settle w)) = authLoading (st w)
  /\ isSaving (st (settle w)) = isSaving (st w)
  /\ showDeleteModal (st (settle w)) = showDeleteModal (st w)
  /\ noteToDelete (st (settle w)) = noteToDelete (st w).
Proof.
  destruct (settle_loop_session 4 false None w) as [(? & ? & ?) (? & ?)].
  repeat split; assumption.
Qed.

(** Each [settle x] is replaced by a world of which only the five cells are
    known. *)
Ltac forget_settle :=
  repeat match goal with
    | |- context [settle ?x] =>
        let H := fresh "Hcells" in
        let y := fresh "y" in
        pose proof (settle_session x) as H; revert H;
        generalize (settle x); intros y H
    | H0 : context [settle ?x] |- _ => revert H0
    end;
  intros.

Ltac cells_all :=
  cbn [currentUser authLoading notes selectedNote currentTitle currentContent
       isLoading isSaving isDirty showDeleteModal noteToDelete
       setCurrentUser setAuthLoading setNotes setSelectedNote setCurrentTitle
       setCurrentContent setIsLoading setIsSaving setIsDirty
       setShowDeleteModal setNoteToDelete load_note closeDeleteModal
       st rendered timer clock store answers console
       upd issue resume console_error set_timer set_rendered set_clock] in *.

Ltac by_cells :=
  forget_settle; cells_all;
  repeat match goal with H : _ /\ _ |- _ => destruct H end;
  repeat split; congruence.

Lemma saveCurrentNote_session c a w :
  isSaving (st w) = false ->
  same_session (st w) (st (saveCurrentNote c a w))
  /\ same_dialog (st w) (st (saveCurrentNote c a w)).
Proof.
  intros Hns. unfold saveCurrentNote, same_session, same_dialog.
  case_match; [|repeat split; reflexivity].
  unfold saveCurrentNote_end, saveCurrentNote_begin.
  destruct (selectedNote c) as [sel|]; [|discriminate].
  destruct (resolved a); by_cells.
Qed.

Lemma same_session_refl s : same_session s s.
Proof. repeat split. Qed.

Lemma handleSelectNote_session c n a w :
  isSaving (st w) = false ->
  same_session (st w) (st (handleSelectNote c n a w)).
Proof.
  intros Hns. unfold handleSelectNote. cbv zeta.
  assert (H1 : same_session (st w)
                 (st (if must_flush c n then saveCurrentNote c a w else w))).
  { case_match; [apply saveCurrentNote_session; exact Hns|apply same_session_refl]. }
  revert H1. generalize (if must_flush c n then saveCurrentNote c a w else w).
  intros w1 (Hu & Ha & Hs). unfold same_session. by_cells.
Qed.

Lemma handleAddNewNote_session c a1 t1 t2 answer a2 w :
  isSaving (st w) = false ->
  same_session (st w) (st (handleAddNewNote c a1 t1 t2 answer a2 w)).
Proof.
  intros Hns. unfold handleAddNewNote. cbv zeta.
  assert (H1 : same_session (st w)
                 (st (if bool_decide (is_Some (selectedNote c)) && isDirty c
                      then saveCurrentNote c a1 w else w))).
  { case_match; [apply saveCurrentNote_session; exact Hns|apply same_session_refl]. }
  revert H1.
  generalize (if bool_decide (is_Some (selectedNote c)) && isDirty c
              then saveCurrentNote c a1 w else w).
  intros w1 (Hu & Ha & Hs). unfold same_session.
  destruct (currentUser c) as [u|]; [|cells; repeat split; congruence].
  destruct answer as [new_id|]; [|by_cells].
  case_match; [|by_cells].
  unfold saveCurrentNote_end, saveCurrentNote_begin.
  destruct (selectedNote c) as [sel|]; [|by_cells].
  destruct (resolved a2); by_cells.
Qed.

Lemma handleConfirmDelete_session c ok w :
  isSaving (st w) = false ->
  same_session (st w) (st (handleConfirmDelete c ok w)).
Proof.
  intros Hns. unfold handleConfirmDelete, same_session.
  destruct (noteToDelete c) as [d|]; [|repeat split; reflexivity].
  case_match; [repeat split; reflexivity|].
  unfold delete_locally. destruct ok; repeat case_match; by_cells.
Qed.

Lemma timeout_fires_session a w :
  isSaving (st w) = false ->
  same_session (st w) (st (timeout_fires a w)).
Proof.
  intros Hns. unfold timeout_fires. destruct (timer w); [|apply same_session_refl].
  apply (saveCurrentNote_session (callback t) a (set_timer None w)). exact Hns.
Qed.

Lemma authStateChanged_session user answer w :
  currentUser (st (authStateChanged user answer w)) = user
  /\ authLoading (st (authStateChanged user answer w)) = false
  /\ isSaving (st (authStateChanged user answer w)) = isSaving (st w).
Proof.
  unfold authStateChanged. cbv zeta.
  match goal with
  | |- context [settle_with answer ?x] =>
      destruct (settle_loop_session 4 false answer x) as [(Hu & Ha & Hs) _];
      change (settle_loop 4 false answer x) with (settle_with answer x) in Hu, Ha, Hs;
      revert Hu Ha Hs; generalize (settle_with answer x)
  end.
  intros y. destruct user; cells; intros -> -> ->; repeat split; reflexivity.
Qed.

(** A step is the callback of the identity service, or it leaves the user,
    [authLoading] and [isSaving] as they were. *)
Lemma step_session w w' :
  step w w' -> isSaving (st w) = false ->
  (exists user answer, w' = authStateChanged user answer w)
  \/ same_session (st w) (st w').
Proof.
  intros Hstep Hns. destruct Hstep.
  - left. eauto.
  - unfold handleLogout. destruct ok; [left; eauto|right; apply same_session_refl].
  - right. unfold editTitle, same_session. by_cells.
  - right. unfold editContent, same_session. by_cells.
  - right. apply handleSelectNote_session, Hns.
  - right. apply handleAddNewNote_session, Hns.
  - right. unfold handleDeleteNote, same_session. by_cells.
  - right. unfold handleCloseDeleteModal, same_session. by_cells.
  - right. apply handleConfirmDelete_session, Hns.
  - right. apply timeout_fires_session, Hns.
  - right. apply same_session_refl.
Qed.

Lemma step_isSaving w w' :
  step w w' -> isSaving (st w) = false -> isSaving (st w') = false.
Proof.
  intros Hs Hns. destruct (step_session w w' Hs Hns) as [(user & answer & ->)|H].
  - destruct (authStateChanged_session user answer w) as (_ & _ & ->). exact Hns.
  - destruct H as (_ & _ & ->). exact Hns.
Qed.

Lemma reachable_isSaving w : reachable w -> isSaving (st w) = false.
Proof.
  induction 1 as [|w w' _ IH Hs]; [reflexivity|].
  apply (step_isSaving w w' Hs IH).
Qed.

Lemma step_authLoading w w' :
  step w w' -> isSaving (st w) = false ->
  authLoading (st w') = false
  \/ (authLoading (st w') = authLoading (st w)
      /\ currentUser (st w') = currentUser (st w)).
Proof.
  intros Hs Hns. destruct (step_session w w' Hs Hns) as [(user & answer & ->)|H].
  - left. apply authStateChanged_session.
  - right. destruct H as (? & ? & _). split; assumption.
Qed.

Lemma reachable_authLoading w :
  reachable w -> authLoading (st w) = true -> currentUser (st w) = None.
Proof.
  induction 1 as [|w w' Hr IH Hs]; [reflexivity|].
  destruct (step_authLoading w w' Hs (reachable_isSaving w Hr)) as [Ha|[Ha Hu]];
    [congruence|].
  rewrite Hu, Ha. exact IH.
Qed.

(** X2: between events [isSaving] is false, and a step from such a state ends
    with [isSaving] false: every handler that sets it resets it on each of
    its paths (save, creation or delete accepted or rejected), so the
    controls that it disables are usable again after every event. *)
Theorem saving_flag_is_reset w :
  reachable w ->
  isSaving (st w) = false
  /\ forall w', step w w' -> isSaving (st w') = false.
Proof.
  intros Hr. pose proof (reachable_isSaving w Hr) as Hns.
  split; [exact Hns|]. intros w' Hs. apply (step_isSaving w w' Hs Hns).
Qed.

(** X5: the spinner is shown only before the identity service has reported
    for the first time: a step never sets [authLoading] again, and
    whenever a user is signed in the page of the notes is on the screen. *)
Theorem signed_in_sees_the_notes w :
  reachable w ->
  (is_Some (currentUser (st w)) -> view (st w) = ViewNotes)
  /\ (forall w', step w w' -> view (st w) <> ViewSpinner ->
        view (st w') <> ViewSpinner).
Proof.
  intros Hr. pose proof (reachable_authLoading w Hr) as Hinv.
  split.
  - intros [u Hu]. unfold view. rewrite Hu.
    destruct (authLoading (st w)); [|reflexivity].
    rewrite Hinv in Hu by reflexivity. discriminate.
  - intros w' Hs Hv.
    destruct (step_authLoading w w' Hs (reachable_isSaving w Hr))
      as [Ha|[Ha Hu]]; unfold view in *; rewrite Ha.
    + destruct (currentUser (st w')); discriminate.
    + destruct (authLoading (st w)); [congruence|].
      destruct (currentUser (st w')); discriminate.
Qed.

(** ** The pending timeout in a run *)

Lemma pass_due m a w : due w -> due (effects_pass m a w).
Proof.
  unfold due. rewrite pass_clock. intros Hd t.
  destruct (pass_timer_cases m a w) as [->|[_ ->]]; [|apply Hd].
  unfold arm. case_match; [|discriminate]. intros [= <-]. simpl. lia.
Qed.

Lemma settle_loop_due n m a w : due w -> due (settle_loop n m a w).
Proof. apply settle_loop_ind. intros; apply pass_due; assumption. Qed.

Lemma settle_due w : due w -> due (settle w).
Proof. apply settle_loop_due. Qed.

Lemma due_upd f w : due w -> due (upd f w).
Proof. exact id. Qed.

Lemma due_issue op w : due w -> due (issue op w).
Proof. exact id. Qed.

Lemma due_console msg w : due w -> due (console_error msg w).
Proof. exact id. Qed.

Lemma due_resume op ok w : due w -> due (resume op ok w).
Proof. exact id. Qed.

Lemma due_unset w : due (set_timer None w).
Proof. intros t. discriminate. Qed.

Lemma saveCurrentNote_begin_due c a w :
  due w -> due (saveCurrentNote_begin c a w).
Proof. intros H. unfold saveCurrentNote_begin. case_match; exact H. Qed.

Lemma saveCurrentNote_end_due c a w :
  due w -> due (saveCurrentNote_end c a w).
Proof. intros H. unfold saveCurrentNote_end. repeat case_match; exact H. Qed.

Lemma delete_locally_due c d w : due w -> due (delete_locally c d w).
Proof. intros H. unfold delete_locally. repeat case_match; exact H. Qed.

Ltac keep_due :=
  repeat match goal with
    | |- due (settle _) => apply settle_due
    | |- due (settle_with _ _) => apply settle_loop_due
    | |- due (saveCurrentNote_begin _ _ _) => apply saveCurrentNote_begin_due
    | |- due (saveCurrentNote_end _ _ _) => apply saveCurrentNote_end_due
    | |- due (delete_locally _ _ _) => apply delete_locally_due
    | |- due (upd _ _) => apply due_upd
    | |- due (issue _ _) => apply due_issue
    | |- due (resume _ _ _) => apply due_resume
    | |- due (console_error _ _) => apply due_console
    | |- due (set_timer None _) => apply due_unset
    | |- due (if _ then _ else _) => case_match
    | |- due (match ?x with _ => _ end) => destruct x
    | |- due _ => assumption
    end.

Lemma saveCurrentNote_due c a w : due w -> due (saveCurrentNote c a w).
Proof. intros H. unfold saveCurrentNote. keep_due. Qed.

Lemma step_due w w' : due w -> step w w' -> due w'.
Proof.
  intros Hd Hstep. destruct Hstep.
  - unfold authStateChanged. cbv zeta. keep_due.
  - unfold handleLogout, authStateChanged. cbv zeta. keep_due.
  - unfold editTitle. keep_due.
  - unfold editContent. keep_due.
  - unfold handleSelectNote. cbv zeta. keep_due; apply saveCurrentNote_due, Hd.
  - unfold handleAddNewNote. cbv zeta.
    assert (H1 : due (if bool_decide (is_Some (selectedNote (st w))) && isDirty (st w)
                      then saveCurrentNote (st w) a1 w else w)).
    { case_match; [apply saveCurrentNote_due|]; exact Hd. }
    revert H1.
    generalize (if bool_decide (is_Some (selectedNote (st w))) && isDirty (st w)
                then saveCurrentNote (st w) a1 w else w).
    intros w1 H1. keep_due.
  - unfold handleDeleteNote. keep_due.
  - unfold handleCloseDeleteModal. keep_due.
  - unfold handleConfirmDelete. keep_due.
  - unfold timeout_fires. rewrite H. apply saveCurrentNote_due, due_unset.
  - intros t Ht. unfold wait in *. cells. pose proof (Hd t Ht). pose proof (H0 t Ht). lia.
Qed.

Lemma reachable_due w : reachable w -> due w.
Proof.
  induction 1 as [|w w' _ IH Hs]; [intros t; discriminate|].
  eapply step_due; eassumption.
Qed.

(** X1: in every state between events, a dirty form has an auto-save pending
    that will call [saveCurrentNote] with the selected note, the title and
    the content that are in the form now, and that is due within 1.5 s and
    not overdue; its expiry sends that save.  A clean form has no timeout
    pending. *)
Theorem unsaved_edits_have_a_save_scheduled w :
  reachable w ->
  (isDirty (st w) = true ->
   exists t sel,
     timer w = Some t
     /\ selectedNote (st w) = Some sel
     /\ clock w <= deadline t <= clock w + 1500
     /\ forall a,
          store (timeout_fires a w)
          = store w ++ [UpdateDoc (Note.id sel) (currentTitle (st w))
                          (currentContent (st w)) (now a)])
  /\ (isDirty (st w) = false -> timer w = None).
Proof.
  intros Hr. pose proof (reachable_quiet w Hr) as Hq.
  pose proof (reachable_isSaving w Hr) as Hns.
  pose proof (reachable_due w Hr) as Hdue.
  pose proof (quiet_tracked w Hq) as Htr.
  pose proof (quiet_same_user w Hq) as Hu.
  destruct Hq as [Hrd Hf Htm].
  pose proof (stable_dirty_tracked _ Hf) as Hdt. unfold dirty_tracked in Hdt.
  split.
  - intros Hd. destruct (selectedNote (st w)) as [sel|] eqn:Hsel; [|congruence].
    destruct (tracked_armed w Htr Hrd) as (t & Ht & Hdeps).
    { eapply autosave_armed_dirty; eassumption. }
    exists t, sel. split; [exact Ht|]. split; [reflexivity|].
    split; [apply Hdue; exact Ht|].
    intros a. unfold autosave_deps in Hdeps.
    injection Hdeps as Hd' Hsel' Hti Hco _.
    rewrite (timeout_fires_store a w t sel Hu Ht); [|congruence|congruence].
    rewrite Hti, Hco. reflexivity.
  - intros Hd. apply tracked_unarmed; [exact Htr|exact Hrd|].
    unfold autosave_armed. rewrite Hd. reflexivity.
Qed.

(** ** Signing out and signing in *)

Lemma selection_and_dirty_isLoading s :
  isLoading (selection_and_dirty s) = isLoading s.
Proof. rewrite selection_and_dirty_eq. repeat case_match; reflexivity. Qed.

(** X4: when the identity service reports a user who is not the current one,
    the effect on the user starts exactly one fetch of the notes of that
    user.  When the store answers, the list is what it answered; when the
    fetch fails the list is left as it was and the error is logged; in both
    cases [isLoading] ends false and a selection that the new list does not
    hold is dropped. *)
Theorem sign_in_fetches_the_notes u answer w :
  rendered w = st w -> currentUser (st w) <> Some u ->
  let w' := authStateChanged (Some u) answer w in
  currentUser (st w') = Some u
  /\ store w' = store w ++ [GetDocs (uid u)]
  /\ isLoading (st w') = false
  /\ selection_kept (st w')
  /\ match answer with
     | Some docs => notes (st w') = docs /\ console w' = console w
     | None => notes (st w') = notes (st w)
               /\ console w' = console w ++ ["Error fetching notes: "]
     end.
Proof.
  intros Hr Hu w'.
  set (w2 := upd (setAuthLoading false) (upd (setCurrentUser (Some u)) w)).
  assert (Hw' : w' = settle_loop 4 false answer w2) by reflexivity.
  destruct (settle_loop_first false answer w2) as (Hs & _ & Hst & Hco).
  rewrite <- Hw' in Hs, Hst, Hco.
  assert (H1 : store (effects_pass false answer w2) = store w ++ [GetDocs (uid u)]
               /\ isLoading (st (effects_pass false answer w2)) = false
               /\ match answer with
                  | Some docs =>
                      notes (st (effects_pass false answer w2)) = docs
                      /\ console (effects_pass false answer w2) = console w
                  | None =>
                      notes (st (effects_pass false answer w2)) = notes (st w)
                      /\ console (effects_pass false answer w2)
                         = console w ++ ["Error fetching notes: "]
                  end).
  { unfold effects_pass. cbv zeta.
    assert (Hne : currentUser (rendered w2) <> currentUser (st w2)).
    { unfold w2. cells. rewrite Hr. exact Hu. }
    rewrite (bool_decide_eq_false_2 _ Hne).
    unfold effect_currentUser, fetchNotes, effect_selection, effect_dirty,
      effect_autosave, w2.
    cells. destruct answer; repeat case_match; try discriminate;
      repeat split; reflexivity. }
  destruct H1 as (Hst1 & Hl1 & Hans).
  split; [apply authStateChanged_session|].
  split; [congruence|].
  split; [rewrite Hs, selection_and_dirty_isLoading; exact Hl1|].
  split; [apply stable_selection_kept; rewrite Hs; apply selection_and_dirty_idem|].
  destruct answer as [docs|]; destruct Hans as [Hn Hc];
    (split; [rewrite Hs, selection_and_dirty_notes; exact Hn|congruence]).
Qed.

(** ** Round trips *)

Lemma settle_notes w :
  same_user w -> notes (st (settle w)) = notes (st w).
Proof. intros Hu. rewrite settle_st by exact Hu. apply selection_and_dirty_notes. Qed.

(** A commit after updates that leave the render steady and the
    dependencies of the auto-save effect as they were changes no timeout. *)
Lemma settle_steady w :
  same_user w -> selection_and_dirty (st w) = st w ->
  autosave_deps (rendered w) = autosave_deps (st w) ->
  st (settle w) = st w /\ rendered (settle w) = st w /\ timer (settle w) = timer w.
Proof.
  intros Hu Hf Hd. unfold settle, settle_with. rewrite settle_loop_S.
  destruct (pass_same_user None w Hu) as (Hs & _).
  rewrite pass_rendered, Hs, Hf, (bool_decide_eq_true_2 _ eq_refl).
  rewrite Hs, Hf, pass_rendered. repeat split. apply pass_timer_same, Hd.
Qed.

Lemma world_eq a b :
  st a = st b -> rendered a = rendered b -> timer a = timer b ->
  clock a = clock b -> store a = store b -> answers a = answers b ->
  console a = console b -> a = b.
Proof. destruct a, b. simpl. intros; subst; reflexivity. Qed.

(** X8: asking to delete a note and then cancelling, with no dialog open
    before, leaves the component exactly as it was: state, pending
    timeout, store calls and console. *)
Theorem request_then_cancel_is_identity d w :
  steady w ->
  showDeleteModal (st w) = false -> noteToDelete (st w) = None ->
  handleCloseDeleteModal (handleDeleteNote d w) = w.
Proof.
  intros Hsteady Hm Hp. pose proof (steady_same_user w Hsteady) as Hu.
  destruct Hsteady as [Hr Hf].
  set (w0 := upd (setShowDeleteModal true) (upd (setNoteToDelete (Some d)) w)).
  assert (H1 : st (settle w0) = st w0 /\ rendered (settle w0) = st w0
               /\ timer (settle w0) = timer w0).
  { apply settle_steady.
    - unfold w0. keep_user.
    - apply (steady_modal (fun _ => true) (fun _ => Some d) _ Hf).
    - unfold w0. cells. rewrite Hr. reflexivity. }
  change (timer w0) with (timer w) in H1.
  destruct H1 as (Hs1 & Hr1 & Ht1).
  assert (Hc1 : clock (settle w0) = clock w /\ store (settle w0) = store w
                /\ console (settle w0) = console w).
  { rewrite settle_clock, settle_store, settle_console by (unfold w0; keep_user).
    repeat split. }
  destruct Hc1 as (Hcl1 & Hst1 & Hco1).
  assert (Han1 : answers (settle w0) = answers w).
  { rewrite settle_answers by (unfold w0; keep_user). reflexivity. }
  change (handleDeleteNote d w) with (settle w0).
  revert Hs1 Hr1 Ht1 Hcl1 Hst1 Hco1 Han1. generalize (settle w0).
  intros w1 Hs1 Hr1 Ht1 Hcl1 Hst1 Hco1 Han1.
  assert (Hback : closeDeleteModal (st w1) = st w).
  { rewrite Hs1. unfold w0. cells. destruct (st w). cells_all. subst. reflexivity. }
  unfold handleCloseDeleteModal.
  assert (H2 : st (settle (upd closeDeleteModal w1)) = st (upd closeDeleteModal w1)
               /\ rendered (settle (upd closeDeleteModal w1))
                  = st (upd closeDeleteModal w1)
               /\ timer (settle (upd closeDeleteModal w1))
                  = timer (upd closeDeleteModal w1)).
  { apply settle_steady.
    - unfold same_user. cells. rewrite Hr1, Hs1. reflexivity.
    - cells. rewrite Hback. exact Hf.
    - cells. rewrite Hr1, Hs1. reflexivity. }
  cells_all. rewrite Hback in H2.
  destruct H2 as (Hs2 & Hr2 & Ht2).
  apply world_eq.
  - exact Hs2.
  - congruence.
  - congruence.
  - rewrite settle_clock. exact Hcl1.
  - rewrite settle_store; [exact Hst1|].
    unfold same_user. cells. rewrite Hr1, Hs1. reflexivity.
  - rewrite settle_answers; [exact Han1|].
    unfold same_user. cells. rewrite Hr1, Hs1. reflexivity.
  - rewrite settle_console; [exact Hco1|].
    unfold same_user. cells. rewrite Hr1, Hs1. reflexivity.
Qed.

Lemma differs_false s e :
  differs s e = false ->
  currentTitle s = Note.title e /\ currentContent s = Note.content e.
Proof.
  unfold differs. intros H. apply orb_false_elim in H as [H1 H2].
  apply negb_false_iff in H1, H2.
  apply bool_decide_eq_true_1 in H1, H2. split; assumption.
Qed.

Lemma setField_revert f v s d :
  isDirty s = false ->
  setIsDirty false (setField f (field_value f s) (setIsDirty d (setField f v s))) = s.
Proof. destruct s, f; simpl; intros ->; reflexivity. Qed.

(** X10: typing into a field of a clean form and then putting the old value
    back leaves the component as if nothing had been typed: the form is
    dirty in between, and afterwards the state is the state before, no
    timeout is pending and nothing was sent to the store. *)
Theorem edit_then_revert f v sel w :
  steady w ->
  selectedNote (st w) = Some sel -> isDirty (st w) = false ->
  v <> field_value f (st w) ->
  let typed := edit f v w in
  let reverted := edit f (field_value f (st w)) typed in
  isDirty (st typed) = true
  /\ st reverted = st w
  /\ timer reverted = None
  /\ store reverted = store w.
Proof.
  intros Hsteady Hsel Hclean Hv typed reverted.
  pose proof (steady_same_user w Hsteady) as Hu. destruct Hsteady as [Hr Hf].
  destruct (stable_selection_kept _ Hf sel Hsel) as [e He].
  pose proof (stable_dirty_tracked _ Hf) as Hdt. unfold dirty_tracked in Hdt.
  rewrite Hsel in Hdt. specialize (Hdt e He). rewrite Hclean in Hdt.
  symmetry in Hdt. destruct (differs_false _ _ Hdt) as [Hti Hco].
  assert (Hu0 : same_user (upd (setField f v) w)).
  { unfold same_user in *. destruct f; exact Hu. }
  assert (Hst : st typed = setIsDirty (differs (setField f v (st w)) e)
                             (setField f v (st w))).
  { unfold typed. rewrite edit_eq, settle_st by exact Hu0.
    apply (selection_and_dirty_found _ sel e); destruct f; assumption. }
  assert (Hrt : rendered typed = st typed).
  { unfold typed. rewrite edit_eq. apply settle_rendered. }
  assert (Hstore : store typed = store w).
  { unfold typed. rewrite edit_eq, settle_store by exact Hu0. reflexivity. }
  assert (Hdirty : differs (setField f v (st w)) e = true).
  { apply differs_true. destruct f; simpl in *; [left|right]; congruence. }
  revert Hst Hrt Hstore. unfold reverted. generalize typed. clear typed reverted.
  intros typed Hst Hrt Hstore.
  assert (Hu1 : same_user (upd (setField f (field_value f (st w))) typed)).
  { unfold same_user. cells. rewrite Hrt. destruct f; reflexivity. }
  assert (Hst2 : st (edit f (field_value f (st w)) typed) = st w).
  { rewrite edit_eq, settle_st by exact Hu1. cells. rewrite Hst.
    rewrite (selection_and_dirty_found _ sel e).
    - replace (differs _ e) with false.
      + apply setField_revert. exact Hclean.
      + symmetry. rewrite <- Hdt. unfold differs. destruct f; reflexivity.
    - destruct f; exact Hsel.
    - destruct f; exact He. }
  split; [rewrite Hst, Hdirty; reflexivity|].
  split; [exact Hst2|]. split.
  - rewrite edit_eq in *.
    destruct (settle_changed_tracked
                (upd (setField f (field_value f (st w))) typed)) as [Htr _].
    { cells. rewrite Hrt, Hst. unfold autosave_deps.
      destruct f; simpl; intros [= H]; apply Hv; simpl; congruence. }
    apply tracked_unarmed; [exact Htr|apply settle_rendered|].
    rewrite Hst2. unfold autosave_armed. rewrite Hclean. reflexivity.
  - rewrite edit_eq, settle_store by exact Hu1. exact Hstore.
Qed.

(** ** The list after a delete *)

Lemma find_note_filter_self d l :
  find_note d (List.filter (fun n => negb (bool_decide (Note.id n = d))) l) = None.
Proof.
  unfold find_note. induction l as [|n l IH]; [reflexivity|]. simpl.
  destruct (decide (Note.id n = d)) as [E|E].
  - rewrite (bool_decide_eq_true_2 _ E). simpl. exact IH.
  - rewrite (bool_decide_eq_false_2 _ E). simpl.
    rewrite (bool_decide_eq_false_2 _ E). exact IH.
Qed.

Lemma handleConfirmDelete_notes d ok w :
  same_user w -> noteToDelete (st w) = Some d -> d <> EmptyString ->
  notes (st (handleConfirmDelete (st w) ok w))
  = (if ok then List.filter (fun n => negb (bool_decide (Note.id n = d)))
                  (notes (st w))
     else notes (st w))
  /\ store (handleConfirmDelete (st w) ok w) = store w ++ [DeleteDoc d].
Proof.
  intros Hu Hd Hne. unfold handleConfirmDelete. rewrite Hd.
  rewrite bool_decide_eq_false_2 by exact Hne.
  rewrite settle_notes, settle_store by keep_user.
  cells.
  assert (H1 : notes (st (settle (upd (setIsSaving true) w))) = notes (st w)
               /\ store (settle (upd (setIsSaving true) w)) = store w).
  { rewrite settle_notes, settle_store by keep_user. split; reflexivity. }
  revert H1. generalize (settle (upd (setIsSaving true) w)). intros w1 [Hn Hs].
  unfold delete_locally. destruct ok; repeat case_match; cells;
    rewrite ?Hn, ?Hs; split; reflexivity.
Qed.

(** X9: after a delete that the store accepted, looking up the deleted id in
    the list finds nothing, and looking up any other id finds what it
    found before; when the store rejects the delete every lookup finds
    what it found before.  In both cases exactly one delete was sent. *)
Theorem deleted_note_is_gone_others_stay d ok w :
  steady w -> noteToDelete (st w) = Some d -> d <> EmptyString ->
  let w' := handleConfirmDelete (st w) ok w in
  store w' = store w ++ [DeleteDoc d]
  /\ (ok = true ->
      find_note d (notes (st w')) = None
      /\ forall i, i <> d ->
           find_note i (notes (st w')) = find_note i (notes (st w)))
  /\ (ok = false ->
      forall i, find_note i (notes (st w')) = find_note i (notes (st w))).
Proof.
  intros Hsteady Hd Hne w'.
  destruct (handleConfirmDelete_notes d ok w (steady_same_user w Hsteady) Hd Hne)
    as [Hn Hs].
  fold w' in Hn, Hs. split; [exact Hs|]. split.
  - intros ->. rewrite Hn. split; [apply find_note_filter_self|].
    intros i Hi. apply find_note_filter_other. exact Hi.
  - intros ->. rewrite Hn. reflexivity.
Qed.

(** ** Rejected calls *)

(** The world after the save that [handleAddNewNote] makes first, if it
    makes one. *)
Lemma flushed_facts a w :
  steady w -> isSaving (st w) = false ->
  let flushed := if bool_decide (is_Some (selectedNote (st w))) && isDirty (st w)
                 then saveCurrentNote (st w) a w else w in
  same_user flushed /\ selection_and_dirty (st flushed) = st flushed
  /\ isSaving (st flushed) = false.
Proof.
  intros Hsteady Hns flushed. pose proof (steady_same_user w Hsteady) as Hu.
  unfold flushed. destruct (bool_decide _ && _) eqn:Hfl.
  - apply andb_prop in Hfl as [Hsome Hd].
    apply bool_decide_eq_true_1 in Hsome. destruct Hsome as [sel Hsel].
    split; [keep_user|]. split.
    + apply (saveCurrentNote_steady_state _ sel); assumption.
    + destruct (saveCurrentNote_session (st w) a w Hns) as [(_ & _ & ->) _].
      exact Hns.
  - destruct Hsteady. auto.
Qed.

(** X13: when the store rejects the creation, [handleAddNewNote] has sent the
    creation once, logs the error and leaves the state as it was after the
    save of a dirty form: nothing is added to the list and the selection
    and the form stay.  Without a user it sends no creation at all. *)
Theorem rejected_creation_changes_nothing a1 t1 t2 a2 w :
  steady w -> isSaving (st w) = false ->
  let flushed := if bool_decide (is_Some (selectedNote (st w))) && isDirty (st w)
                 then saveCurrentNote (st w) a1 w else w in
  (forall u, currentUser (st w) = Some u ->
     let w' := handleAddNewNote (st w) a1 t1 t2 None a2 w in
     st w' = st flushed
     /\ store w' = store flushed
                   ++ [AddDoc "Untitled Note" EmptyString t1 t2 (uid u)]
     /\ console w' = console flushed ++ ["Error adding new note: "])
  /\ (currentUser (st w) = None ->
      forall answer,
        let w' := handleAddNewNote (st w) a1 t1 t2 answer a2 w in
        st w' = st flushed /\ store w' = store flushed
        /\ console w' = console flushed ++ ["No user logged in. Cannot add note."]).
Proof.
  intros Hsteady Hns flushed.
  destruct (flushed_facts a1 w Hsteady Hns) as (Hu & Hf & Hns1).
  fold flushed in Hu, Hf, Hns1.
  split.
  - intros u Hcu w'. unfold w', handleAddNewNote. cbv zeta. rewrite Hcu.
    fold flushed. revert Hu Hf Hns1. generalize flushed. clear flushed.
    intros w1 Hu Hf Hns1.
    rewrite settle_st, settle_store, settle_console by keep_user. cells.
    rewrite settle_st, settle_store, settle_console by keep_user. cells.
    rewrite (steady_setIsSaving true _ Hf).
    rewrite setIsSaving_roundtrip by exact Hns1.
    repeat split. exact Hf.
  - intros Hcu answer w'. unfold w', handleAddNewNote. cbv zeta. rewrite Hcu.
    fold flushed. repeat split.
Qed.

(** X12: when the form is dirty, another note is clicked and the store rejects
    the save of the form, the clicked note is loaded all the same: the
    entry of the edited note in the list is what it was, the form holds the
    clicked note, and no auto-save is pending.  The edit is then neither in
    the form nor in the list, and only the console tells. *)
Theorem rejected_flush_loses_the_edit sel n a w :
  steady w ->
  selectedNote (st w) = Some sel -> isDirty (st w) = true ->
  isSaving (st w) = false ->
  Note.id sel <> Note.id n ->
  find_note (Note.id n) (notes (st w)) = Some n ->
  resolved a = false ->
  let w' := handleSelectNote (st w) n a w in
  notes (st w') = notes (st w)
  /\ selectedNote (st w') = Some n
  /\ currentTitle (st w') = Note.title n
  /\ currentContent (st w') = Note.content n
  /\ isDirty (st w') = false
  /\ timer w' = None
  /\ console w' = console w ++ ["Error saving note:"].
Proof.
  intros Hsteady Hsel Hd Hns Hid Hn Hno w'.
  pose proof (steady_same_user w Hsteady) as Hu.
  assert (Hm : must_flush (st w) n = true) by (apply must_flush_true; eauto).
  destruct (saveCurrentNote_state sel a w Hsteady Hsel Hd Hns) as [_ Hs].
  rewrite Hno in Hs.
  destruct (saveCurrentNote_spec (st w) sel a w Hu Hsel Hd)
    as (_ & _ & Hrd & _ & Hco & _). cbv zeta in Hrd, Hco. rewrite Hno in Hco.
  destruct Hsteady as [Hr Hf].
  destruct (saveCurrentNote_timer (st w) sel a w Hr Hns Hsel Hd) as [Htr _].
  unfold w', handleSelectNote. cbv zeta. rewrite Hm.
  revert Hs Hrd Hco Htr. generalize (saveCurrentNote (st w) a w).
  intros saved Hs Hrd Hco Htr.
  assert (Hu1 : same_user (upd (load_note n) saved)).
  { unfold same_user. cells. rewrite Hrd. reflexivity. }
  assert (Hst : st (settle (upd (load_note n) saved)) = load_note n (st w)).
  { rewrite settle_st by exact Hu1. cells. rewrite Hs.
    apply load_note_steady. exact Hn. }
  rewrite Hst. cells. do 5 (split; [reflexivity|]). split.
  - apply tracked_unarmed.
    + apply settle_tracked, tracked_upd, Htr.
    + apply settle_rendered.
    + rewrite Hst. reflexivity.
  - rewrite settle_console by exact Hu1. exact Hco.
Qed.

(** ** The confirmation dialog across sessions *)

Lemma settle_with_session answer w :
  same_session (st w) (st (settle_with answer w))
  /\ same_dialog (st w) (st (settle_with answer w)).
Proof. apply settle_loop_session. Qed.

Lemma authStateChanged_dialog user answer w :
  same_dialog (st w) (st (authStateChanged user answer w))
  /\ rendered (authStateChanged user answer w) = st (authStateChanged user answer w).
Proof.
  unfold authStateChanged. cbv zeta.
  match goal with
  | |- context [settle_with answer ?x] =>
      destruct (settle_with_session answer x) as [_ (Hm & Hp)];
      pose proof (proj1 (proj2 (settle_loop_first false answer x))) as Hr;
      change (settle_loop 4 false answer x) with (settle_with answer x) in Hr;
      revert Hm Hp Hr; generalize (settle_with answer x)
  end.
  intros y. unfold same_dialog. destruct user; cells; intros -> -> ->;
    repeat split; reflexivity.
Qed.

(** X7: neither the end of a session nor the start of the next one closes the
    confirmation dialog or forgets the id it is about: a delete asked for
    before the session ended is still pending after the next sign-in, and
    confirming it then sends the delete of that id. *)
Theorem pending_delete_survives_sign_out d u answer1 answer2 ok w :
  let asked := handleDeleteNote d w in
  let signed_out := authStateChanged None answer1 asked in
  let signed_in := authStateChanged (Some u) answer2 signed_out in
  noteToDelete (st signed_in) = Some d
  /\ showDeleteModal (st signed_in) = true
  /\ (d <> EmptyString ->
      store (handleConfirmDelete (st signed_in) ok signed_in)
      = store signed_in ++ [DeleteDoc d]).
Proof.
  intros asked signed_out signed_in.
  assert (H0 : showDeleteModal (st asked) = true /\ noteToDelete (st asked) = Some d).
  { unfold asked, handleDeleteNote.
    destruct (settle_session (upd (setShowDeleteModal true)
                (upd (setNoteToDelete (Some d)) w))) as (_ & _ & _ & -> & ->).
    split; reflexivity. }
  destruct (authStateChanged_dialog None answer1 asked) as [(Hm1 & Hp1) _].
  destruct (authStateChanged_dialog (Some u) answer2 signed_out)
    as [(Hm2 & Hp2) Hr2].
  fold signed_out in Hm1, Hp1. fold signed_in in Hm2, Hp2, Hr2.
  destruct H0 as [Hm0 Hp0].
  assert (Hp : noteToDelete (st signed_in) = Some d) by congruence.
  split; [exact Hp|]. split; [congruence|].
  intros Hne. apply handleConfirmDelete_notes; [|exact Hp|exact Hne].
  unfold same_user. rewrite Hr2. reflexivity.
Qed.

(** ** The login page *)

Lemma login_run_from events p :
  let p' := LoginPage.run events p in
  LoginPage.error (LoginPage.cells p')
  = LoginPage.error_after events (LoginPage.error (LoginPage.cells p))
  /\ LoginPage.isLogin (LoginPage.cells p')
     = xorb (LoginPage.isLogin (LoginPage.cells p))
         (Nat.odd (length (List.filter LoginPage.is_toggle events)))
  /\ length (LoginPage.calls p')
     = (length (LoginPage.calls p)
        + length (List.filter LoginPage.is_submit events))%nat
  /\ (LoginPage.isLoading (LoginPage.cells p) = false ->
      LoginPage.isLoading (LoginPage.cells p') = false).
Proof.
  revert p. induction events as [|e events IH]; intros p.
  - cbn. rewrite xorb_false_r. repeat split; auto.
  - cbn zeta. change (LoginPage.run (e :: events) p)
      with (LoginPage.run events (LoginPage.handle p e)).
    destruct (IH (LoginPage.handle p e)) as (He & Hm & Hc & Hl).
    rewrite He, Hm, Hc.
    destruct e; cbn [LoginPage.handle LoginPage.error_after List.filter
                       LoginPage.is_toggle LoginPage.is_submit length].
    + split; [destruct answer; reflexivity|]. split; [destruct answer; reflexivity|].
      split.
      * cbn. rewrite length_app. cbn. lia.
      * intros _. apply Hl. reflexivity.
    + split; [reflexivity|]. split.
      * cbn [LoginPage.toggleMode LoginPage.cells LoginPage.isLogin].
        rewrite Nat.odd_succ, <- Nat.negb_odd.
        destruct (LoginPage.isLogin (LoginPage.cells p)),
                 (Nat.odd (length (List.filter LoginPage.is_toggle events)));
          reflexivity.
      * split; [reflexivity|]. intros H. apply Hl. exact H.
    + repeat split. intros H. apply Hl. exact H.
    + repeat split. intros H. apply Hl. exact H.
Qed.

(** X14: after any sequence of submits, mode switches and typing on the login
    page: the error on display is the message of the last submit if it was
    rejected and the mode was not switched since, and nothing otherwise;
    the page is in login mode exactly when the mode was switched an even
    number of times; one call was made per submit; and the form is not
    left loading. *)
Theorem login_page_after_events events :
  let p := LoginPage.run events (LoginPage.mkPage LoginPage.initial [] []) in
  LoginPage.error (LoginPage.cells p) = LoginPage.error_after events None
  /\ LoginPage.isLogin (LoginPage.cells p)
     = Nat.even (length (List.filter LoginPage.is_toggle events))
  /\ length (LoginPage.calls p)
     = length (List.filter LoginPage.is_submit events)
  /\ LoginPage.isLoading (LoginPage.cells p) = false.
Proof.
  destruct (login_run_from events (LoginPage.mkPage LoginPage.initial [] []))
    as (He & Hm & Hc & Hl).
  cbv zeta. split; [exact He|]. split.
  - rewrite Hm. cbn. rewrite <- Nat.negb_odd. reflexivity.
  - split; [exact Hc|]. apply Hl. reflexivity.
Qed.

(** X15: a submit sends the call of the mode the page is in, with the email and
    the password that were typed last. *)
Theorem submit_uses_what_was_typed e pw answer events p :
  let typed := LoginPage.setPassword pw (LoginPage.setEmail e p) in
  let p' := LoginPage.handleSubmit answer typed in
  LoginPage.calls p'
  = LoginPage.calls p
    ++ [if LoginPage.isLogin (LoginPage.cells p)
        then LoginPage.SignIn e pw else LoginPage.SignUp e pw]
  /\ LoginPage.buttonText (LoginPage.cells p')
     = (if LoginPage.isLogin (LoginPage.cells p) then "Login" else "Sign Up")
  /\ LoginPage.error (LoginPage.cells (LoginPage.run events p'))
     = LoginPage.error_after events answer.
Proof.
  cbv zeta. split; [reflexivity|]. split.
  - unfold LoginPage.buttonText. destruct answer; reflexivity.
  - destruct (login_run_from events
                (LoginPage.handleSubmit answer
                   (LoginPage.setPassword pw (LoginPage.setEmail e p))))
      as (He & _).
    rewrite He. destruct answer; reflexivity.
Qed.

(** ** The confirmation dialog in a run *)

Lemma same_dialog_refl s : same_dialog s s.
Proof. split; reflexivity. Qed.

Lemma handleSelectNote_dialog c n a w :
  isSaving (st w) = false ->
  same_dialog (st w) (st (handleSelectNote c n a w)).
Proof.
  intros Hns. unfold handleSelectNote. cbv zeta.
  assert (H1 : same_dialog (st w)
                 (st (if must_flush c n then saveCurrentNote c a w else w))).
  { case_match; [apply saveCurrentNote_session; exact Hns|apply same_dialog_refl]. }
  revert H1. generalize (if must_flush c n then saveCurrentNote c a w else w).
  intros w1 (Hm & Hp). unfold same_dialog. by_cells.
Qed.

Lemma handleAddNewNote_dialog c a1 t1 t2 answer a2 w :
  isSaving (st w) = false ->
  same_dialog (st w) (st (handleAddNewNote c a1 t1 t2 answer a2 w)).
Proof.
  intros Hns. unfold handleAddNewNote. cbv zeta.
  assert (H1 : same_dialog (st w)
                 (st (if bool_decide (is_Some (selectedNote c)) && isDirty c
                      then saveCurrentNote c a1 w else w))).
  { case_match; [apply saveCurrentNote_session; exact Hns|apply same_dialog_refl]. }
  revert H1.
  generalize (if bool_decide (is_Some (selectedNote c)) && isDirty c
              then saveCurrentNote c a1 w else w).
  intros w1 (Hm & Hp). unfold same_dialog.
  destruct (currentUser c) as [u|]; [|cells; split; congruence].
  destruct answer as [new_id|]; [|by_cells].
  case_match; [|by_cells].
  unfold saveCurrentNote_end, saveCurrentNote_begin.
  destruct (selectedNote c) as [sel|]; [|by_cells].
  destruct (resolved a2); by_cells.
Qed.

Lemma dialog_matches_same s s' :
  same_dialog s s' -> dialog_matches s -> dialog_matches s'.
Proof. unfold dialog_matches. intros [-> ->]. tauto. Qed.

Lemma step_dialog w w' :
  step w w' -> isSaving (st w) = false ->
  dialog_matches (st w) -> dialog_matches (st w').
Proof.
  intros Hstep Hns Hdm.
  assert (Hopen : forall x, showDeleteModal (st x) = true ->
                    is_Some (noteToDelete (st x)) -> dialog_matches (st x)).
  { intros x H1 H2. unfold dialog_matches. tauto. }
  assert (Hclosed : forall x, showDeleteModal (st x) = false ->
                      noteToDelete (st x) = None -> dialog_matches (st x)).
  { intros x H1 H2. unfold dialog_matches. rewrite H1, H2. split; [discriminate|].
    intros [? ?]. discriminate. }
  destruct Hstep.
  - eapply dialog_matches_same; [apply authStateChanged_dialog|exact Hdm].
  - unfold handleLogout. destruct ok; [|exact Hdm].
    eapply dialog_matches_same; [apply authStateChanged_dialog|exact Hdm].
  - eapply dialog_matches_same; [|exact Hdm].
    unfold editTitle, same_dialog. by_cells.
  - eapply dialog_matches_same; [|exact Hdm].
    unfold editContent, same_dialog. by_cells.
  - eapply dialog_matches_same; [apply handleSelectNote_dialog, Hns|exact Hdm].
  - eapply dialog_matches_same; [apply handleAddNewNote_dialog, Hns|exact Hdm].
  - apply Hopen; unfold handleDeleteNote.
    + forget_settle. cells_all.
      repeat match goal with H : _ /\ _ |- _ => destruct H end. congruence.
    + exists (Note.id n). forget_settle. cells_all.
      repeat match goal with H : _ /\ _ |- _ => destruct H end. congruence.
  - apply Hclosed; unfold handleCloseDeleteModal; by_cells.
  - unfold handleConfirmDelete.
    destruct (noteToDelete (st w)) as [d|] eqn:Hd; [|exact Hdm].
    case_match; [exact Hdm|].
    apply Hclosed; unfold delete_locally; destruct ok; repeat case_match; by_cells.
  - eapply dialog_matches_same; [|exact Hdm].
    unfold timeout_fires. destruct (timer w); [|apply same_dialog_refl].
    apply (saveCurrentNote_session (callback t0) a (set_timer None w)). exact Hns.
  - exact Hdm.
Qed.

Lemma reachable_dialog w : reachable w -> dialog_matches (st w).
Proof.
  induction 1 as [|w w' Hr IH Hs].
  - split; [discriminate|]. intros [? ?]. discriminate.
  - apply (step_dialog w w' Hs (reachable_isSaving w Hr) IH).
Qed.

(** X6: in every state between events the confirmation dialog is open exactly
    when the id of a note to delete is recorded; with the dialog closed,
    [handleConfirmDelete] does nothing at all. *)
Theorem dialog_open_iff_delete_pending w :
  reachable w ->
  (showDeleteModal (st w) = true <-> is_Some (noteToDelete (st w)))
  /\ (showDeleteModal (st w) = false ->
      forall ok, handleConfirmDelete (st w) ok w = w).
Proof.
  intros Hr. pose proof (reachable_dialog w Hr) as Hdm. split; [exact Hdm|].
  intros Hclosed ok. unfold handleConfirmDelete.
  destruct (noteToDelete (st w)) as [d|] eqn:Hd; [|reflexivity].
  exfalso. unfold dialog_matches in Hdm. rewrite Hd in Hdm.
  destruct Hdm as [_ Hdm]. rewrite Hdm in Hclosed by eauto. discriminate.
Qed.

(** X11: opening a note of the list while the form is clean only reads: nothing
    is sent to the store or written on the console, the list is the same,
    the form holds the note, and no auto-save is pending. *)
Theorem opening_a_note_is_read_only n a w :
  quiet w -> isDirty (st w) = false ->
  find_note (Note.id n) (notes (st w)) = Some n ->
  let w' := handleSelectNote (st w) n a w in
  st w' = load_note n (st w)
  /\ store w' = store w /\ console w' = console w
  /\ timer w' = None.
Proof.
  intros Hq Hclean Hn w'.
  pose proof (quiet_tracked w Hq) as Htr.
  pose proof (quiet_same_user w Hq) as Hu.
  assert (Hm : must_flush (st w) n = false).
  { unfold must_flush. rewrite Hclean.
    destruct (selectedNote (st w)); [apply andb_false_r|reflexivity]. }
  unfold w', handleSelectNote. cbv zeta. rewrite Hm.
  assert (Hu1 : same_user (upd (load_note n) w)) by keep_user.
  assert (Hst : st (settle (upd (load_note n) w)) = load_note n (st w)).
  { rewrite settle_st by exact Hu1. apply load_note_steady. exact Hn. }
  split; [exact Hst|].
  rewrite settle_store, settle_console by exact Hu1.
  do 2 (split; [reflexivity|]).
  apply tracked_unarmed.
  - apply settle_tracked, tracked_upd, Htr.
  - apply settle_rendered.
  - rewrite Hst. reflexivity.
Qed.

(** ** The theorems on the run of the example *)

Lemma saving_flag_is_reset_witness :
  reachable demo_dirty
  /\ isSaving (st demo_dirty) = false
  /\ forall w', step demo_dirty w' -> isSaving (st w') = false.
Proof.
  split; [apply demo_dirty_reachable|].
  apply (saving_flag_is_reset demo_dirty). apply demo_dirty_reachable.
Defined.

Lemma signed_in_sees_the_notes_witness :
  reachable demo_dirty
  /\ (is_Some (currentUser (st demo_dirty)) -> view (st demo_dirty) = ViewNotes)
  /\ (forall w', step demo_dirty w' -> view (st demo_dirty) <> ViewSpinner ->
        view (st w') <> ViewSpinner).
Proof.
  split; [apply demo_dirty_reachable|].
  apply (signed_in_sees_the_notes demo_dirty). apply demo_dirty_reachable.
Defined.

Lemma unsaved_edits_have_a_save_scheduled_witness :
  reachable demo_dirty
  /\ isDirty (st demo_dirty) = true
  /\ exists t sel,
       timer demo_dirty = Some t
       /\ selectedNote (st demo_dirty) = Some sel
       /\ clock demo_dirty <= deadline t <= clock demo_dirty + 1500
       /\ forall a,
            store (timeout_fires a demo_dirty)
            = store demo_dirty ++ [UpdateDoc (Note.id sel)
                                     (currentTitle (st demo_dirty))
                                     (currentContent (st demo_dirty)) (now a)].
Proof.
  split; [apply demo_dirty_reachable|]. split; [vm_compute; reflexivity|].
  apply (proj1 (unsaved_edits_have_a_save_scheduled demo_dirty
                  demo_dirty_reachable)).
  vm_compute. reflexivity.
Defined.

Lemma sign_in_fetches_the_notes_witness :
  rendered mounted = st mounted
  /\ currentUser (st mounted) <> Some (mkUser "u")
  /\ let w' := authStateChanged (Some (mkUser "u")) (Some [demo_n1; demo_n2])
                 mounted in
     currentUser (st w') = Some (mkUser "u")
     /\ store w' = store mounted ++ [GetDocs (uid (mkUser "u"))]
     /\ isLoading (st w') = false
     /\ selection_kept (st w')
     /\ notes (st w') = [demo_n1; demo_n2] /\ console w' = console mounted.
Proof.
  split; [vm_compute; reflexivity|]. split; [vm_compute; discriminate|].
  apply (sign_in_fetches_the_notes (mkUser "u") (Some [demo_n1; demo_n2]) mounted).
  - vm_compute. reflexivity.
  - vm_compute. discriminate.
Defined.

Lemma request_then_cancel_is_identity_witness :
  steady demo_dirty
  /\ handleCloseDeleteModal (handleDeleteNote "n1" demo_dirty) = demo_dirty.
Proof.
  split; [split; vm_compute; reflexivity|].
  apply (request_then_cancel_is_identity "n1" demo_dirty).
  - split; vm_compute; reflexivity.
  - vm_compute. reflexivity.
  - vm_compute. reflexivity.
Defined.

Lemma edit_then_revert_witness :
  steady demo_selected
  /\ isDirty (st demo_selected) = false
  /\ let typed := edit FieldTitle "B" demo_selected in
     let reverted := edit FieldTitle (field_value FieldTitle (st demo_selected))
                       typed in
     isDirty (st typed) = true
     /\ st reverted = st demo_selected
     /\ timer reverted = None
     /\ store reverted = store demo_selected.
Proof.
  split; [split; vm_compute; reflexivity|]. split; [vm_compute; reflexivity|].
  apply (edit_then_revert FieldTitle "B" demo_n1 demo_selected).
  - split; vm_compute; reflexivity.
  - vm_compute. reflexivity.
  - vm_compute. reflexivity.
  - vm_compute. discriminate.
Defined.

Lemma deleted_note_is_gone_others_stay_witness :
  steady demo_pending
  /\ noteToDelete (st demo_pending) = Some "n1"
  /\ let w' := handleConfirmDelete (st demo_pending) true demo_pending in
     store w' = store demo_pending ++ [DeleteDoc "n1"]
     /\ (true = true ->
         find_note "n1" (notes (st w')) = None
         /\ forall i, i <> "n1" ->
              find_note i (notes (st w')) = find_note i (notes (st demo_pending)))
     /\ (true = false ->
         forall i, find_note i (notes (st w'))
                   = find_note i (notes (st demo_pending))).
Proof.
  split; [split; vm_compute; reflexivity|]. split; [vm_compute; reflexivity|].
  apply (deleted_note_is_gone_others_stay "n1" true demo_pending).
  - split; vm_compute; reflexivity.
  - vm_compute. reflexivity.
  - discriminate.
Defined.

Lemma rejected_creation_changes_nothing_witness :
  steady demo_selected
  /\ currentUser (st demo_selected) = Some (mkUser "u")
  /\ let flushed :=
       if bool_decide (is_Some (selectedNote (st demo_selected)))
          && isDirty (st demo_selected)
       then saveCurrentNote (st demo_selected) (mkSaveAnswer 0 true) demo_selected
       else demo_selected in
     let w' := handleAddNewNote (st demo_selected) (mkSaveAnswer 0 true) 100 101
                 None (mkSaveAnswer 0 true) demo_selected in
     st w' = st flushed
     /\ store w' = store flushed
                   ++ [AddDoc "Untitled Note" EmptyString 100 101
                         (uid (mkUser "u"))]
     /\ console w' = console flushed ++ ["Error adding new note: "].
Proof.
  split; [split; vm_compute; reflexivity|]. split; [vm_compute; reflexivity|].
  apply (proj1 (rejected_creation_changes_nothing (mkSaveAnswer 0 true) 100 101
                  (mkSaveAnswer 0 true) demo_selected
                  ltac:(split; vm_compute; reflexivity)
                  ltac:(vm_compute; reflexivity)) (mkUser "u")).
  vm_compute. reflexivity.
Defined.

Lemma rejected_flush_loses_the_edit_witness :
  steady demo_dirty
  /\ currentTitle (st demo_dirty) = "B"
  /\ let w' := handleSelectNote (st demo_dirty) demo_n2 (mkSaveAnswer 78 false)
                 demo_dirty in
     notes (st w') = notes (st demo_dirty)
     /\ selectedNote (st w') = Some demo_n2
     /\ currentTitle (st w') = Note.title demo_n2
     /\ currentContent (st w') = Note.content demo_n2
     /\ isDirty (st w') = false
     /\ timer w' = None
     /\ console w' = console demo_dirty ++ ["Error saving note:"].
Proof.
  split; [split; vm_compute; reflexivity|]. split; [vm_compute; reflexivity|].
  apply (rejected_flush_loses_the_edit demo_n1 demo_n2 (mkSaveAnswer 78 false)
           demo_dirty).
  - split; vm_compute; reflexivity.
  - vm_compute. reflexivity.
  - vm_compute. reflexivity.
  - vm_compute. reflexivity.
  - vm_compute. discriminate.
  - vm_compute. reflexivity.
  - reflexivity.
Defined.

Lemma dialog_open_iff_delete_pending_witness :
  reachable demo_dirty
  /\ (showDeleteModal (st demo_dirty) = true
      <-> is_Some (noteToDelete (st demo_dirty)))
  /\ (showDeleteModal (st demo_dirty) = false ->
      forall ok, handleConfirmDelete (st demo_dirty) ok demo_dirty = demo_dirty).
Proof.
  split; [apply demo_dirty_reachable|].
  apply (dialog_open_iff_delete_pending demo_dirty). apply demo_dirty_reachable.
Defined.

Lemma opening_a_note_is_read_only_witness :
  quiet demo_selected
  /\ isDirty (st demo_selected) = false
  /\ let w' := handleSelectNote (st demo_selected) demo_n2 (mkSaveAnswer 0 true)
                 demo_selected in
     st w' = load_note demo_n2 (st demo_selected)
     /\ store w' = store demo_selected /\ console w' = console demo_selected
     /\ timer w' = None.
Proof.
  split; [split; vm_compute; repeat split; reflexivity|].
  split; [vm_compute; reflexivity|].
  apply (opening_a_note_is_read_only demo_n2 (mkSaveAnswer 0 true) demo_selected).
  - split; vm_compute; repeat split; reflexivity.
  - vm_compute. reflexivity.
  - vm_compute. reflexivity.
Defined.
